(** * Private position entry/exit: the orchestration service and its SDK modules

    A shallow embedding of [lib/privateTradingService.ts] and of the three
    modules it imports ([sdk/privacy/shield.ts], [sdk/privacy/unshield.ts],
    [sdk/privacy/incognito.ts]), and the properties of the specification
    proved (or refuted) on it.

    Conventions of the embedding.
    - A JavaScript string is a [string]; each character stands for the code
      unit of the same number.
    - Integral JavaScript numbers (chain ids, millisecond clock readings,
      32-bit hash values) are [Z]; the 32-bit wrap-around is written out.
    - [parseFloat] yields the exact decimal value of the literal it reads;
      the comparisons with zero account for the rounding to a double.
    - An [async] function is a computation over the [World]; what it throws
      (its rejection) is the [Throw] outcome. *)

From Stdlib Require Import ZArith List String Ascii Bool Lia QArith.
Import ListNotations.

Local Open Scope string_scope.
Local Open Scope Z_scope.

(** ** JavaScript primitives used by the code *)

Module Js.

(** [c.charCodeAt(0)] *)
Definition charCode (c : ascii) : Z := Z.of_nat (nat_of_ascii c).

Definition char_in (lo hi : ascii) (c : ascii) : bool :=
  (charCode lo <=? charCode c) && (charCode c <=? charCode hi).

Definition is_digit (c : ascii) : bool := char_in "0" "9" c.

(** The character class [[a-fA-F0-9]]. *)
Definition is_hex (c : ascii) : bool :=
  char_in "a" "f" c || char_in "A" "F" c || char_in "0" "9" c.

(** [[a-fA-F0-9]{n}$] *)
Fixpoint hex_run (n : nat) (s : string) : bool :=
  match n, s with
  | O, EmptyString => true
  | S n', String c s' => is_hex c && hex_run n' s'
  | _, _ => false
  end.

(** [/^0x[a-fA-F0-9]{n}$/.test(s)] *)
Definition matches_0x_hex (n : nat) (s : string) : bool :=
  match s with
  | String "0" (String "x" rest) => hex_run n rest
  | _ => false
  end.

(** Truthiness of a string: only the empty string is falsy. *)
Definition truthy (s : string) : bool :=
  match s with EmptyString => false | _ => true end.

(** [ToInt32]: the signed 32-bit integer congruent to [z]. *)
Definition toInt32 (z : Z) : Z :=
  let m := z mod 2 ^ 32 in
  if m <? 2 ^ 31 then m else m - 2 ^ 32.

(** [a << k] on numbers *)
Definition shl (a k : Z) : Z := toInt32 (Z.shiftl (toInt32 a) k).

(** [a & b] on numbers *)
Definition band (a b : Z) : Z := toInt32 (Z.land (toInt32 a) (toInt32 b)).

Definition digit_char (d : Z) : ascii :=
  ascii_of_nat (Z.to_nat (if d <? 10 then 48 + d else 87 + d)).

(** Digits of the non-negative [n] in [radix] (10 or 16), most significant
    first, pushed in front of [acc]. *)
Fixpoint digits_onto (fuel : nat) (radix n : Z) (acc : string) : string :=
  match fuel with
  | O => acc
  | S fuel' =>
      if n <? radix then String (digit_char n) acc
      else digits_onto fuel' radix (n / radix)
                       (String (digit_char (n mod radix)) acc)
  end.

(** [n.toString(radix)] for a safe integer [n] (at most [2^53 - 1] in
    magnitude), which JavaScript prints exactly and digit by digit; beyond
    that range [toString] rounds and, from [10^21], prints an exponent. *)
Definition toString_radix (radix n : Z) : string :=
  let a := Z.abs n in
  let body := digits_onto (S (Z.to_nat (Z.log2 a))) radix a "" in
  if n <? 0 then String "-" body else body.

Definition toString (n : Z) : string := toString_radix 10 n.

(** [s.slice(from)] and [s.slice(0, n)] for non-negative bounds *)
Fixpoint slice_from (from : nat) (s : string) : string :=
  match from, s with
  | O, _ => s
  | S k, String _ s' => slice_from k s'
  | S _, EmptyString => EmptyString
  end.

Fixpoint slice_to (n : nat) (s : string) : string :=
  match n, s with
  | S k, String c s' => String c (slice_to k s')
  | _, _ => EmptyString
  end.

Fixpoint repeat_char (c : ascii) (n : nat) : string :=
  match n with O => EmptyString | S k => String c (repeat_char c k) end.

(** [s.padStart(n, c)] and [s.padEnd(n, c)] with a one-character filler *)
Definition padStart (n : nat) (c : ascii) (s : string) : string :=
  repeat_char c (n - String.length s) ++ s.

Definition padEnd (n : nat) (c : ascii) (s : string) : string :=
  s ++ repeat_char c (n - String.length s).

(** *** [parseFloat] *)

(** What [parseFloat] returns: [Decimal neg m e] is the literal whose
    mathematical value is [m * 10^e], negated when [neg]; it is rounded to
    the nearest double only when it is compared. *)
Inductive Number : Type :=
| NaN
| Infinity (negative : bool)
| Decimal (negative : bool) (mantissa : Z) (exponent : Z).

(** White space and line terminators among the code units below 256. *)
Definition is_space (c : ascii) : bool :=
  let n := charCode c in
  (9 <=? n) && (n <=? 13) || (n =? 32) || (n =? 160).

Fixpoint trimStart (s : string) : string :=
  match s with
  | String c s' => if is_space c then trimStart s' else s
  | EmptyString => EmptyString
  end.

(** The longest run of decimal digits in front of [s], and what follows. *)
Fixpoint span_digits (s : string) : string * string :=
  match s with
  | String c s' =>
      if is_digit c then let (d, r) := span_digits s' in (String c d, r)
      else (EmptyString, s)
  | EmptyString => (EmptyString, EmptyString)
  end.

Fixpoint digits_value (s : string) (acc : Z) : Z :=
  match s with
  | String c s' => digits_value s' (10 * acc + (charCode c - 48))
  | EmptyString => acc
  end.

(** An optional sign in front of [s]. *)
Definition take_sign (s : string) : bool * string :=
  match s with
  | String "-" r => (true, r)
  | String "+" r => (false, r)
  | _ => (false, s)
  end.

(** The value of an [ExponentPart] in front of [s]; 0 when there is none. *)
Definition exponent_part (s : string) : Z :=
  match s with
  | String c r =>
      if (charCode c =? 101) || (charCode c =? 69) then
        let (neg, r') := take_sign r in
        let (ds, _) := span_digits r' in
        match ds with
        | EmptyString => 0
        | _ => if neg then - digits_value ds 0 else digits_value ds 0
        end
      else 0
  | EmptyString => 0
  end.

(** [parseFloat(s)]: skip leading white space, read the longest prefix that
    is a [StrDecimalLiteral], [NaN] when there is none. *)
Definition parseFloat (s : string) : Number :=
  let (neg, u) := take_sign (trimStart s) in
  if prefix "Infinity" u then Infinity neg
  else
    let (ip, r1) := span_digits u in
    let (fp, r2) :=
      match r1 with
      | String "." r => span_digits r
      | _ => (EmptyString, r1)
      end in
    match ip ++ fp with
    | EmptyString => NaN
    | ds => Decimal neg (digits_value ds 0)
                    (exponent_part r2 - Z.of_nat (String.length fp))
    end.

(** The positive value [m * 10^e] rounds to the double zero: it is at most
    half the least positive double, [2^-1075]. *)
Definition rounds_to_zero (m e : Z) : bool :=
  (m =? 0) || ((e <? 0) && (m * 2 ^ 1075 <=? 10 ^ (- e))).

(** [x > 0] *)
Definition gt_zero (x : Number) : bool :=
  match x with
  | NaN => false
  | Infinity neg => negb neg
  | Decimal neg m e => negb neg && negb (rounds_to_zero m e)
  end.

(** [x <= 0] *)
Definition le_zero (x : Number) : bool :=
  match x with
  | NaN => false
  | Infinity neg => neg
  | Decimal neg m e => neg || rounds_to_zero m e
  end.

(** What a [throw] carries: an [Error] with its message, or any other value,
    kept as what [String(value)] renders. *)
Inductive Thrown : Type :=
| Error (message : string)
| Value (rendered : string).

(** [error instanceof Error ? error.message : String(error)] *)
Definition message_of (e : Thrown) : string :=
  match e with
  | Error m => m
  | Value s => s
  end.

End Js.

(** ** Types of [types/private-trading.ts] *)

Inductive SupportedToken : Type := USDC | USDT | DAI | WETH | WBTC.

Inductive TransactionState : Type :=
| IDLE | PENDING | CONFIRMING | INDEXING | COMPLETED | FAILED.

Inductive PrivacyPoolStatus : Type :=
| NOT_INITIALIZED | READY | SHIELDING | UNSHIELDING | ERROR.

Inductive TradeType : Type := ENTRY | EXIT.

(** [state === other] *)
Definition state_eqb (a b : TransactionState) : bool :=
  match a, b with
  | IDLE, IDLE | PENDING, PENDING | CONFIRMING, CONFIRMING
  | INDEXING, INDEXING | COMPLETED, COMPLETED | FAILED, FAILED => true
  | _, _ => false
  end.

Record PrivateTradeConfig : Type := mkConfig {
  cfg_tradeType : TradeType;
  cfg_token : SupportedToken;
  cfg_amount : string;
  cfg_slippageTolerance : Q;
  cfg_autoUnshield : option bool;
  cfg_maxIndexingTime : option Z
}.

Record PrivateFundsStatus : Type := mkStatus {
  shieldedBalance : string;
  incognitoBalance : string;
  mainWalletBalance : string;
  privacyPoolStatus : PrivacyPoolStatus;
  isReady : bool;
  transactionState : TransactionState;
  error : option string;
  lastUpdated : Z
}.

Record IncognitoWallet : Type := mkWallet {
  address : string;
  mainWalletAddress : string;
  wallet_chainId : Z;
  isActive : bool;
  createdAt : Z;
  label : option string
}.

Record ShieldTransaction : Type := mkShieldTx {
  st_txHash : string;
  st_token : SupportedToken;
  st_amount : string;
  st_state : TransactionState;
  st_startedAt : Z;
  st_confirmedAt : option Z;
  st_error : option string
}.

Record UnshieldTransaction : Type := mkUnshieldTx {
  ut_txHash : string;
  ut_token : SupportedToken;
  ut_amount : string;
  destinationAddress : string;
  ut_state : TransactionState;
  ut_startedAt : Z;
  ut_completedAt : option Z;
  ut_error : option string
}.

(** What [shieldTokens] and [unshieldTokens] resolve to. *)
Record Submitted : Type := mkSubmitted {
  txHash : string;
  state : TransactionState
}.

(** ** The world an [async] function runs in *)

(** [now] is what [Date.now()] reads; [draws] counts the calls of
    [Math.random()] made so far. *)
Record World : Type := mkWorld {
  now : Z;
  draws : nat
}.

(** What the host supplies: [random_hex n] is what the [n]-th
    [Math.random().toString(16)] renders, [timer_lag t] is how late a timer
    set at time [t] fires. *)
Record Runtime : Type := mkRuntime {
  random_hex : nat -> string;
  timer_lag : Z -> Z
}.

Inductive Outcome (A : Type) : Type :=
| Return (a : A)
| Throw (e : Js.Thrown).
Arguments Return {A} a.
Arguments Throw {A} e.

(** An awaited function of an SDK module: it resolves or rejects, and may
    change the world. *)
Definition Async (A : Type) : Type := World -> Outcome A * World.

(** ** [sdk/privacy/shield.ts] *)

Module ShieldModule.

Definition shieldTokens (rt : Runtime) (walletAddress : string)
    (_token : SupportedToken) (amount : string) (_chainId : Z)
  : Async Submitted :=
  fun w =>
    if negb (Js.truthy walletAddress) || negb (Js.matches_0x_hex 40 walletAddress)
    then (Throw (Js.Error "Invalid wallet address"), w)
    else if negb (Js.truthy amount) || Js.le_zero (Js.parseFloat amount)
    then (Throw (Js.Error "Invalid amount"), w)
    else
      let mockTxHash :=
        "0x" ++ Js.padEnd 64 "0" (Js.slice_from 2 (random_hex rt (draws w))) in
      (Return {| txHash := mockTxHash; state := PENDING |},
       {| now := now w; draws := S (draws w) |}).

Definition getShieldedBalance (walletAddress : string)
    (_token : SupportedToken) (_chainId : Z) : Async string :=
  fun w =>
    if negb (Js.truthy walletAddress) || negb (Js.matches_0x_hex 40 walletAddress)
    then (Throw (Js.Error "Invalid wallet address"), w)
    else (Return "0", w).

Definition getTransactionStatus (txHash : string) : Async TransactionState :=
  fun w =>
    if negb (Js.truthy txHash) || negb (Js.matches_0x_hex 64 txHash)
    then (Throw (Js.Error "Invalid transaction hash"), w)
    else (Return COMPLETED, w).

End ShieldModule.

(** ** [sdk/privacy/unshield.ts] *)

Module UnshieldModule.

Definition unshieldTokens (rt : Runtime) (destinationAddress : string)
    (_token : SupportedToken) (amount : string) (_chainId : Z)
  : Async Submitted :=
  fun w =>
    if negb (Js.truthy destinationAddress)
       || negb (Js.matches_0x_hex 40 destinationAddress)
    then (Throw (Js.Error "Invalid destination address"), w)
    else if negb (Js.truthy amount) || Js.le_zero (Js.parseFloat amount)
    then (Throw (Js.Error "Invalid amount"), w)
    else
      let mockTxHash :=
        "0x" ++ Js.padEnd 64 "0" (Js.slice_from 2 (random_hex rt (draws w))) in
      (Return {| txHash := mockTxHash; state := PENDING |},
       {| now := now w; draws := S (draws w) |}).

Definition getUnshieldStatus (txHash : string) : Async TransactionState :=
  fun w =>
    if negb (Js.truthy txHash) || negb (Js.matches_0x_hex 64 txHash)
    then (Throw (Js.Error "Invalid transaction hash"), w)
    else (Return COMPLETED, w).

End UnshieldModule.

(** ** [sdk/privacy/incognito.ts] *)

Module IncognitoModule.

(** The body of the [for] loop of [simpleHash], from the character at hand
    to the end of the input. *)
Fixpoint simpleHash_loop (input : string) (hash : Z) : Z :=
  match input with
  | EmptyString => hash
  | String c rest =>
      let hash1 := Js.shl hash 5 - hash + Js.charCode c in
      simpleHash_loop rest (Js.band hash1 hash1)
  end.

Definition simpleHash (input : string) : string :=
  let hash := simpleHash_loop input 0 in
  let hexHash := Js.padStart 8 "0" (Js.toString_radix 16 (Z.abs hash)) in
  Js.slice_to 40 (hexHash ++ hexHash ++ hexHash ++ hexHash ++ hexHash).

Definition deriveIncognitoAddress (mainWalletAddress : string) (chainId : Z)
  : Async string :=
  fun w =>
    if negb (Js.truthy mainWalletAddress)
       || negb (Js.matches_0x_hex 40 mainWalletAddress)
    then (Throw (Js.Error "Invalid main wallet address"), w)
    else
      let hash := simpleHash (mainWalletAddress ++ Js.toString chainId) in
      let incognitoAddress := "0x" ++ Js.slice_to 40 hash in
      (Return incognitoAddress, w).

Definition getIncognitoBalance (incognitoAddress : string)
    (_token : SupportedToken) (_chainId : Z) : Async string :=
  fun w =>
    if negb (Js.truthy incognitoAddress)
       || negb (Js.matches_0x_hex 40 incognitoAddress)
    then (Throw (Js.Error "Invalid incognito address"), w)
    else (Return "0", w).

Definition isValidIncognitoAddress (address : string) : bool :=
  Js.matches_0x_hex 40 address.

End IncognitoModule.

(** ** [privateTradingService.ts] *)

(** The functions the service imports from the three SDK modules.  The
    service is written against this interface, so that it can be run on the
    modules above or on any replacement of them. *)
Record Sdk : Type := mkSdk {
  shieldTokens : string -> SupportedToken -> string -> Z -> Async Submitted;
  getShieldedBalance : string -> SupportedToken -> Z -> Async string;
  getTransactionStatus : string -> Async TransactionState;
  unshieldTokens : string -> SupportedToken -> string -> Z -> Async Submitted;
  deriveIncognitoAddress : string -> Z -> Async string;
  getIncognitoBalance : string -> SupportedToken -> Z -> Async string
}.

(** The modules of the repository, as the service imports them. *)
Definition repositorySdk (rt : Runtime) : Sdk := {|
  shieldTokens := ShieldModule.shieldTokens rt;
  getShieldedBalance := ShieldModule.getShieldedBalance;
  getTransactionStatus := ShieldModule.getTransactionStatus;
  unshieldTokens := UnshieldModule.unshieldTokens rt;
  deriveIncognitoAddress := IncognitoModule.deriveIncognitoAddress;
  getIncognitoBalance := IncognitoModule.getIncognitoBalance
|}.

(** A call of the service into an SDK module, with its arguments. *)
Inductive Call : Type :=
| CallShieldTokens (walletAddress : string) (token : SupportedToken)
                   (amount : string) (chainId : Z)
| CallGetShieldedBalance (walletAddress : string) (token : SupportedToken)
                         (chainId : Z)
| CallGetTransactionStatus (txHash : string)
| CallUnshieldTokens (destinationAddress : string) (token : SupportedToken)
                     (amount : string) (chainId : Z)
| CallDeriveIncognitoAddress (mainWalletAddress : string) (chainId : Z)
| CallGetIncognitoBalance (incognitoAddress : string) (token : SupportedToken)
                          (chainId : Z).

(** A method of the service: its outcome, the world it leaves, and the calls
    it made into the SDK, in order. *)
Definition Task (A : Type) : Type := World -> Outcome A * World * list Call.

Definition ret {A : Type} (a : A) : Task A := fun w => (Return a, w, []).

Definition throw {A : Type} (e : Js.Thrown) : Task A :=
  fun w => (Throw e, w, []).

Definition bind {A B : Type} (m : Task A) (k : A -> Task B) : Task B :=
  fun w =>
    match m w with
    | (Return a, w1, t1) =>
        match k a w1 with (r, w2, t2) => (r, w2, (t1 ++ t2)%list) end
    | (Throw e, w1, t1) => (Throw e, w1, t1)
    end.

(** [try { body } catch (error) { handler }] *)
Definition try_catch {A : Type} (body : Task A) (handler : Js.Thrown -> Task A)
  : Task A :=
  fun w =>
    match body w with
    | (Throw e, w1, t1) =>
        match handler e w1 with (r, w2, t2) => (r, w2, (t1 ++ t2)%list) end
    | done => done
    end.

(** [await f(args)] for a function [f] of an SDK module: the call is
    recorded, then made. *)
Definition await {A : Type} (c : Call) (f : Async A) : Task A :=
  fun w => match f w with (r, w1) => (r, w1, [c]) end.

(** [Date.now()] *)
Definition Date_now : Task Z := fun w => (Return (now w), w, []).

(** [await new Promise((resolve) => setTimeout(resolve, delay))] *)
Definition setTimeout (rt : Runtime) (delay : Z) (w : World) : World :=
  {| now := now w + delay + timer_lag rt (now w); draws := draws w |}.

Notation "'let*' x ':=' m 'in' k" := (bind m (fun x => k))
  (at level 10, x pattern, m at level 100, k at level 200, only parsing).

(** The functions of the SDK as the service calls them: every call is
    recorded with its arguments, then awaited. *)
Section SdkCalls.

Variable sdk : Sdk.

Definition call_shieldTokens (walletAddress : string) (token : SupportedToken)
    (amount : string) (chainId : Z) : Task Submitted :=
  await (CallShieldTokens walletAddress token amount chainId)
        (shieldTokens sdk walletAddress token amount chainId).

Definition call_getShieldedBalance (walletAddress : string)
    (token : SupportedToken) (chainId : Z) : Task string :=
  await (CallGetShieldedBalance walletAddress token chainId)
        (getShieldedBalance sdk walletAddress token chainId).

Definition call_getTransactionStatus (txHash : string)
  : Task TransactionState :=
  await (CallGetTransactionStatus txHash) (getTransactionStatus sdk txHash).

Definition call_unshieldTokens (destinationAddress : string)
    (token : SupportedToken) (amount : string) (chainId : Z)
  : Task Submitted :=
  await (CallUnshieldTokens destinationAddress token amount chainId)
        (unshieldTokens sdk destinationAddress token amount chainId).

Definition call_deriveIncognitoAddress (mainWalletAddress : string)
    (chainId : Z) : Task string :=
  await (CallDeriveIncognitoAddress mainWalletAddress chainId)
        (deriveIncognitoAddress sdk mainWalletAddress chainId).

Definition call_getIncognitoBalance (incognitoAddress : string)
    (token : SupportedToken) (chainId : Z) : Task string :=
  await (CallGetIncognitoBalance incognitoAddress token chainId)
        (getIncognitoBalance sdk incognitoAddress token chainId).

End SdkCalls.

(** [a || b] on an optional number: [a] unless it is absent or zero. *)
Definition or_else (a : option Z) (b : Z) : Z :=
  match a with
  | Some v => if v =? 0 then b else v
  | None => b
  end.

Definition DEFAULT_MAX_INDEXING_TIME : Z := 70000.
Definition POLLING_INTERVAL : Z := 2000.

Section PrivateTradingService.

Variable rt : Runtime.
Variable sdk : Sdk.
(** [this.chainId] *)
Variable chainId : Z.

Definition getChainId : Z := chainId.

Definition preparePrivateFunds (mainWalletAddress : string)
    (config : PrivateTradeConfig) : Task ShieldTransaction :=
  try_catch
    (let* startedAt := Date_now in
     let* r := call_shieldTokens sdk mainWalletAddress (cfg_token config)
                                 (cfg_amount config) chainId in
     ret {| st_txHash := txHash r;
            st_token := cfg_token config;
            st_amount := cfg_amount config;
            st_state := state r;
            st_startedAt := startedAt;
            st_confirmedAt := None;
            st_error := None |})
    (fun error =>
       throw (Js.Error ("Failed to prepare private funds: "
                        ++ Js.message_of error))).

Definition unshieldForTrading (incognitoWallet : IncognitoWallet)
    (config : PrivateTradeConfig) : Task UnshieldTransaction :=
  try_catch
    (let* startedAt := Date_now in
     let* r := call_unshieldTokens sdk (address incognitoWallet)
                                   (cfg_token config) (cfg_amount config)
                                   chainId in
     ret {| ut_txHash := txHash r;
            ut_token := cfg_token config;
            ut_amount := cfg_amount config;
            destinationAddress := address incognitoWallet;
            ut_state := state r;
            ut_startedAt := startedAt;
            ut_completedAt := None;
            ut_error := None |})
    (fun error =>
       throw (Js.Error ("Failed to unshield for trading: "
                        ++ Js.message_of error))).

Definition checkPrivateFundsStatus (mainWalletAddress incognitoAddress : string)
    (token : SupportedToken) : Task PrivateFundsStatus :=
  try_catch
    (let* shieldedBalance :=
       call_getShieldedBalance sdk mainWalletAddress token chainId in
     let* incognitoBalance :=
       call_getIncognitoBalance sdk incognitoAddress token chainId in
     let mainWalletBalance := "0" in
     let hasShieldedFunds := Js.gt_zero (Js.parseFloat shieldedBalance) in
     let hasIncognitoFunds := Js.gt_zero (Js.parseFloat incognitoBalance) in
     let isReady := hasShieldedFunds || hasIncognitoFunds in
     let* lastUpdated := Date_now in
     ret {| shieldedBalance := shieldedBalance;
            incognitoBalance := incognitoBalance;
            mainWalletBalance := mainWalletBalance;
            privacyPoolStatus := if isReady then READY else NOT_INITIALIZED;
            isReady := isReady;
            transactionState := IDLE;
            error := None;
            lastUpdated := lastUpdated |})
    (fun error =>
       let* lastUpdated := Date_now in
       ret {| shieldedBalance := "0";
              incognitoBalance := "0";
              mainWalletBalance := "0";
              privacyPoolStatus := ERROR;
              isReady := false;
              transactionState := FAILED;
              error := Some (Js.message_of error);
              lastUpdated := lastUpdated |}).

Definition exitPrivatePosition (incognitoWallet : IncognitoWallet)
    (config : PrivateTradeConfig) : Task ShieldTransaction :=
  try_catch
    (let* startedAt := Date_now in
     let* r := call_shieldTokens sdk (address incognitoWallet)
                                 (cfg_token config) (cfg_amount config)
                                 chainId in
     ret {| st_txHash := txHash r;
            st_token := cfg_token config;
            st_amount := cfg_amount config;
            st_state := state r;
            st_startedAt := startedAt;
            st_confirmedAt := None;
            st_error := None |})
    (fun error =>
       throw (Js.Error ("Failed to exit private position: "
                        ++ Js.message_of error))).

(** [...(label && { label })]: the label is kept when given and not empty. *)
Definition spread_label (label : option string) : option string :=
  match label with
  | Some l => if Js.truthy l then Some l else None
  | None => None
  end.

Definition deriveIncognitoWallet (mainWalletAddress : string)
    (label : option string) : Task IncognitoWallet :=
  try_catch
    (let* address :=
       call_deriveIncognitoAddress sdk mainWalletAddress chainId in
     let* createdAt := Date_now in
     ret {| address := address;
            mainWalletAddress := mainWalletAddress;
            wallet_chainId := chainId;
            isActive := true;
            createdAt := createdAt;
            label := spread_label label |})
    (fun error =>
       throw (Js.Error ("Failed to derive incognito wallet: "
                        ++ Js.message_of error))).

(** The [while] loop of [waitForTransactionConfirmation]; [fuel] bounds the
    number of iterations, [None] is "still looping when the fuel ran out". *)
Fixpoint wait_loop (fuel : nat) (txHash : string) (maxTime startTime : Z)
    (w : World) : option (Outcome TransactionState * World * list Call) :=
  match fuel with
  | O => None
  | S fuel' =>
      if now w - startTime <? maxTime then
        match call_getTransactionStatus sdk txHash w with
        | (Return state, w1, t1) =>
            if state_eqb state COMPLETED then Some (Return state, w1, t1)
            else if state_eqb state FAILED then
              Some (Throw (Js.Error "Transaction failed"), w1, t1)
            else
              match wait_loop fuel' txHash maxTime startTime
                              (setTimeout rt POLLING_INTERVAL w1) with
              | Some (r, w2, t2) => Some (r, w2, (t1 ++ t2)%list)
              | None => None
              end
        | (Throw e, w1, t1) => Some (Throw e, w1, t1)
        end
      else Some (Throw (Js.Error "Transaction confirmation timeout"), w, [])
  end.

Definition waitForTransactionConfirmation (fuel : nat) (txHash : string)
    (maxWaitTime : option Z) (w : World)
  : option (Outcome TransactionState * World * list Call) :=
  let maxTime := or_else maxWaitTime DEFAULT_MAX_INDEXING_TIME in
  let startTime := now w in
  wait_loop fuel txHash maxTime startTime w.

End PrivateTradingService.

(** ** Notions used in the statements *)

(** The 20-byte hex-address shape: [0x] followed by exactly 40 hex
    characters. *)
Definition address_shape (s : string) : bool := Js.matches_0x_hex 40 s.


(** Both balance reads succeed, with balances [sb] and [ib]. *)
Definition balance_reads_return (sdk : Sdk) (chainId : Z)
    (mainWalletAddress incognitoAddress : string) (token : SupportedToken)
    (w : World) (sb ib : string) : Prop :=
  exists w1,
    getShieldedBalance sdk mainWalletAddress token chainId w = (Return sb, w1)
    /\ fst (getIncognitoBalance sdk incognitoAddress token chainId w1) = Return ib.

(** A balance string that parses to a number strictly greater than 0. *)
Definition strictly_positive (balance : string) : bool :=
  Js.gt_zero (Js.parseFloat balance).

(** A world and a runtime to run examples in. *)
Definition world0 : World := {| now := 0; draws := 0 |}.
Definition runtime0 : Runtime :=
  {| random_hex := fun _ => "0.8f3a"; timer_lag := fun _ => 0 |}.

(** The operation reference the modules make of the draw of [runtime0]. *)
Definition hash0 : string :=
  "0x8f3a000000000000000000000000000000000000000000000000000000000000".

Definition wallet1 : string := "0x1234567890123456789012345678901234567890".
Definition wallet2 : string := "0x9876543210987654321098765432109876543210".

Definition config0 : PrivateTradeConfig :=
  {| cfg_tradeType := ENTRY; cfg_token := USDC; cfg_amount := "10000";
     cfg_slippageTolerance := 0.5%Q; cfg_autoUnshield := None;
     cfg_maxIndexingTime := None |}.

(** An SDK whose balance reads return the given strings. *)
Definition balancesSdk (sb ib : string) : Sdk := {|
  shieldTokens := ShieldModule.shieldTokens runtime0;
  getShieldedBalance := fun _ _ _ w => (Return sb, w);
  getTransactionStatus := ShieldModule.getTransactionStatus;
  unshieldTokens := UnshieldModule.unshieldTokens runtime0;
  deriveIncognitoAddress := IncognitoModule.deriveIncognitoAddress;
  getIncognitoBalance := fun _ _ _ w => (Return ib, w)
|}.

(** The character class [[0-9a-f]]: the digits [toString(16)] produces. *)
Definition is_lower_hex (c : ascii) : bool :=
  Js.char_in "0" "9" c || Js.char_in "a" "f" c.

Fixpoint string_forall (p : ascii -> bool) (s : string) : bool :=
  match s with
  | EmptyString => true
  | String c s' => p c && string_forall p s'
  end.

Definition five_blocks (block : string) : string :=
  block ++ block ++ block ++ block ++ block.




(** The world at the head of iteration [k] of the loop of
    [waitForTransactionConfirmation], when each of the [k] iterations before
    it passed the deadline test and polled a state that is neither
    [COMPLETED] nor [FAILED]; [None] when the loop was left earlier. *)
Fixpoint after_polls (rt : Runtime) (sdk : Sdk) (k : nat) (txHash : string)
    (maxTime startTime : Z) (w : World) : option World :=
  match k with
  | O => Some w
  | S k' =>
      if now w - startTime <? maxTime then
        match getTransactionStatus sdk txHash w with
        | (Return st, w1) =>
            if state_eqb st COMPLETED || state_eqb st FAILED then None
            else after_polls rt sdk k' txHash maxTime startTime
                             (setTimeout rt POLLING_INTERVAL w1)
        | (Throw _, _) => None
        end
      else None
  end.

(** Operation references to run the confirmation tracker on. *)
Definition tx_completing : string :=
  "0xabcdef1234567890abcdef1234567890abcdef1234567890abcdef1234567890".
Definition tx_failing : string :=
  "0xdef1234567890abcdef1234567890abcdef1234567890abcdef1234567890abc".
Definition tx_stuck : string :=
  "0x0000000000000000000000000000000000000000000000000000000000000000".

(** A provider whose status query answers by the clock: [tx_completing] is
    pending, then confirming, then completed; [tx_failing] is pending, then
    failed; any other operation stays pending. *)
Definition scriptedSdk : Sdk := {|
  shieldTokens := ShieldModule.shieldTokens runtime0;
  getShieldedBalance := ShieldModule.getShieldedBalance;
  getTransactionStatus := fun txHash w =>
    (Return
       (if String.eqb txHash tx_completing then
          if now w <? 2000 then PENDING
          else if now w <? 4000 then CONFIRMING else COMPLETED
        else if String.eqb txHash tx_failing then
          if now w <? 2000 then PENDING else FAILED
        else PENDING), w);
  unshieldTokens := UnshieldModule.unshieldTokens runtime0;
  deriveIncognitoAddress := IncognitoModule.deriveIncognitoAddress;
  getIncognitoBalance := IncognitoModule.getIncognitoBalance
|}.

(** The operation-reference shape: [0x] followed by exactly 64 hex
    characters. *)
Definition tx_shape (s : string) : bool := Js.matches_0x_hex 64 s.

(** The hash with multiplier 31 over unbounded integers, started from [h]. *)
Fixpoint poly31 (input : string) (h : Z) : Z :=
  match input with
  | EmptyString => h
  | String c rest => poly31 rest (31 * h + Js.charCode c)
  end.

(** The operation reference [shieldTokens] and [unshieldTokens] make of
    the next random draw, and the world after that draw. *)
Definition next_reference (rt : Runtime) (w : World) : string :=
  "0x" ++ Js.padEnd 64 "0" (Js.slice_from 2 (random_hex rt (draws w))).

Definition after_draw (w : World) : World :=
  {| now := now w; draws := S (draws w) |}.

(** Every random draw renders, after its two leading characters, as at most
    64 hex characters (a double below 1 renders in base 16 as [0.] and at
    most 14 digits). *)
Definition renders_hex (rt : Runtime) : Prop :=
  forall n,
    string_forall Js.is_hex (Js.slice_from 2 (random_hex rt n)) = true
    /\ (String.length (Js.slice_from 2 (random_hex rt n)) <= 64)%nat.

(** The snapshot [checkPrivateFundsStatus] returns when a read throws. *)
Definition error_snapshot (message : string) (time : Z) : PrivateFundsStatus :=
  {| shieldedBalance := "0"; incognitoBalance := "0";
     mainWalletBalance := "0"; privacyPoolStatus := ERROR; isReady := false;
     transactionState := FAILED; error := Some message;
     lastUpdated := time |}.

(** ** The JavaScript primitives on sample inputs *)

Example parseFloat_samples :
  map Js.parseFloat ["1000"; "0"; "-10"; ""; "abc"; " 1.5e3x"; ".5"; "."; "1e"; "-.0"; "5."]
  = [Js.Decimal false 1000 0; Js.Decimal false 0 0; Js.Decimal true 10 0;
     Js.NaN; Js.NaN; Js.Decimal false 15 2; Js.Decimal false 5 (-1); Js.NaN;
     Js.Decimal false 1 0; Js.Decimal true 0 (-1); Js.Decimal false 5 0].
Proof. reflexivity. Qed.

Example gt_zero_samples :
  map (fun s => Js.gt_zero (Js.parseFloat s))
      ["1000"; "0"; "-10"; ""; "abc"; "1e-400"; "1e-300"; "Infinity"; "0.000"]
  = [true; false; false; false; false; false; true; true; false].
Proof. vm_compute. reflexivity. Qed.

Example toString_samples :
  (Js.toString 137, Js.toString 0, Js.toString (-42), Js.toString_radix 16 2147483648,
   Js.toString_radix 16 255)
  = ("137", "0", "-42", "80000000", "ff").
Proof. vm_compute. reflexivity. Qed.

Example address_shape_samples :
  map address_shape
      [wallet1; "invalid"; ""; "1234567890123456789012345678901234567890";
       "0x123"; "0x12345678901234567890123456789012345678901";
       "0x123456789012345678901234567890123456789g"]
  = [true; false; false; false; false; false; false].
Proof. reflexivity. Qed.

(** ** What [parseFloat] tells about a string *)

(** [x > 0] is not the negation of [x <= 0]: both fail on [NaN]. *)
Lemma gt_zero_le_zero x :
  Js.gt_zero x = true <-> Js.le_zero x = false /\ x <> Js.NaN.
Proof.
  destruct x as [|[]|[] m e]; simpl; try destruct (Js.rounds_to_zero m e);
    simpl; split;
    first [ discriminate
          | intros [H _]; discriminate H
          | intros [_ H]; congruence
          | intros _; split; [reflexivity | discriminate] ].
Qed.

(** A literal with a minus sign is never strictly positive. *)
Lemma negative_literal_not_positive u :
  Js.gt_zero
    (if prefix "Infinity" u then Js.Infinity true
     else
       let (ip, r1) := Js.span_digits u in
       let (fp, r2) :=
         match r1 with
         | String "." r => Js.span_digits r
         | _ => (EmptyString, r1)
         end in
       match ip ++ fp with
       | EmptyString => Js.NaN
       | ds => Js.Decimal true (Js.digits_value ds 0)
                          (Js.exponent_part r2 - Z.of_nat (String.length fp))
       end) = false.
Proof.
  destruct (prefix "Infinity" u); [reflexivity|].
  destruct (Js.span_digits u) as [ip r1].
  destruct (match r1 with String "." r => Js.span_digits r | _ => (EmptyString, r1) end) as [fp r2].
  destruct (ip ++ fp); reflexivity.
Qed.

(** A strictly positive string starts, after leading white space, with a
    digit, a dot, a plus sign or the [I] of [Infinity]. *)
Lemma strictly_positive_shape s :
  strictly_positive s = true ->
  exists c rest,
    Js.trimStart s = String c rest
    /\ (Js.is_digit c = true \/ c = "."%char \/ c = "+"%char \/ c = "I"%char).
Proof.
  unfold strictly_positive, Js.parseFloat.
  destruct (Js.trimStart s) as [|c rest]; [discriminate|].
  intros H. exists c, rest. split; [reflexivity|].
  destruct (Js.is_digit c) eqn:Ed; [now left|]. right.
  destruct c as [[] [] [] [] [] [] [] []]; try discriminate Ed;
    try (now left); try (right; now left); try (right; right; reflexivity);
    try (exfalso; revert H; cbn [Js.take_sign]; 
         first [ rewrite negative_literal_not_positive; discriminate
               | cbn; destruct rest; discriminate ]).
Qed.

(** ** The status aggregator *)

Ltac run_task :=
  unfold checkPrivateFundsStatus, preparePrivateFunds, unshieldForTrading,
    exitPrivatePosition, deriveIncognitoWallet, try_catch, bind,
    call_shieldTokens, call_unshieldTokens, call_getShieldedBalance,
    call_getIncognitoBalance, call_deriveIncognitoAddress, await,
    Date_now, ret, throw.

(** [checkPrivateFundsStatus] returns a snapshot whatever the reads do. *)
Lemma checkPrivateFundsStatus_total sdk chainId main incog token w :
  exists status w' calls,
    checkPrivateFundsStatus sdk chainId main incog token w
    = (Return status, w', calls).
Proof.
  run_task.
  destruct (getShieldedBalance sdk main token chainId w) as [[sb|e] w1];
    [destruct (getIncognitoBalance sdk incog token chainId w1) as [[ib|e] w2]|];
    simpl; eauto.
Qed.



(** What [checkPrivateFundsStatus] returns when both reads succeed. *)
Lemma checkPrivateFundsStatus_success sdk chainId main incog token w sb ib :
  balance_reads_return sdk chainId main incog token w sb ib ->
  exists w' calls,
    checkPrivateFundsStatus sdk chainId main incog token w
    = (Return {| shieldedBalance := sb;
                 incognitoBalance := ib;
                 mainWalletBalance := "0";
                 privacyPoolStatus :=
                   if strictly_positive sb || strictly_positive ib
                   then READY else NOT_INITIALIZED;
                 isReady := strictly_positive sb || strictly_positive ib;
                 transactionState := IDLE;
                 error := None;
                 lastUpdated := now w' |}, w', calls).
Proof.
  intros (w1 & Hs & Hi). run_task. rewrite Hs.
  destruct (getIncognitoBalance sdk incog token chainId w1) as [r w2].
  simpl in Hi; subst r; simpl. eauto.
Qed.

(** C3.  Readiness rule: when both balance reads succeed, [isReady] is
    (the shielded balance parses to a number > 0) or (the incognito balance
    parses to a number > 0); [privacyPoolStatus] is [READY] exactly when
    [isReady], and [NOT_INITIALIZED] otherwise; so [isReady] holds only when
    one of the two balances is strictly positive. *)
Theorem checkPrivateFundsStatus_readiness sdk chainId main incog token w sb ib :
  balance_reads_return sdk chainId main incog token w sb ib ->
  exists status w' calls,
    checkPrivateFundsStatus sdk chainId main incog token w
    = (Return status, w', calls)
    /\ isReady status = strictly_positive sb || strictly_positive ib
    /\ (privacyPoolStatus status = READY <-> isReady status = true)
    /\ (isReady status = false -> privacyPoolStatus status = NOT_INITIALIZED)
    /\ (isReady status = true ->
        strictly_positive sb = true \/ strictly_positive ib = true).
Proof.
  intros H.
  destruct (checkPrivateFundsStatus_success _ _ _ _ _ _ _ _ H)
    as (w' & calls & E).
  eexists _, w', calls. split; [exact E|]. simpl.
  destruct (strictly_positive sb), (strictly_positive ib); simpl;
    repeat split; intros; auto; discriminate.
Qed.

Lemma checkPrivateFundsStatus_readiness_witness :
  exists status w' calls,
    checkPrivateFundsStatus (balancesSdk "1000" "0") 1 wallet1 wallet2 USDC
                            world0
    = (Return status, w', calls)
    /\ isReady status = true
    /\ privacyPoolStatus status = READY.
Proof.
  destruct (checkPrivateFundsStatus_readiness (balancesSdk "1000" "0") 1
              wallet1 wallet2 USDC world0 "1000" "0"
              (ex_intro _ world0 (conj eq_refl eq_refl)))
    as (status & w' & calls & E & Hr & Hi & _).
  exists status, w', calls. split; [exact E|].
  split; [exact Hr | apply Hi; exact Hr].
Defined.

(** The readiness examples of the specification: balances ["1000"] and ["0"]
    are ready, two ["0"] are not. *)
Example readiness_samples :
  (fst (fst (checkPrivateFundsStatus (balancesSdk "1000" "0") 1 wallet1 wallet2
                                     USDC world0)),
   fst (fst (checkPrivateFundsStatus (balancesSdk "0" "0") 1 wallet1 wallet2
                                     USDC world0)))
  = (Return {| shieldedBalance := "1000"; incognitoBalance := "0";
               mainWalletBalance := "0"; privacyPoolStatus := READY;
               isReady := true; transactionState := IDLE; error := None;
               lastUpdated := 0 |},
     Return {| shieldedBalance := "0"; incognitoBalance := "0";
               mainWalletBalance := "0"; privacyPoolStatus := NOT_INITIALIZED;
               isReady := false; transactionState := IDLE; error := None;
               lastUpdated := 0 |}).
Proof. vm_compute. reflexivity. Qed.

(** C10.  When both balance reads succeed, the snapshot has
    [mainWalletBalance = "0"] and [transactionState = IDLE], whatever the
    inputs and the balances read. *)
Theorem checkPrivateFundsStatus_constants sdk chainId main incog token w sb ib :
  balance_reads_return sdk chainId main incog token w sb ib ->
  exists status w' calls,
    checkPrivateFundsStatus sdk chainId main incog token w
    = (Return status, w', calls)
    /\ mainWalletBalance status = "0"
    /\ transactionState status = IDLE.
Proof.
  intros H.
  destruct (checkPrivateFundsStatus_success _ _ _ _ _ _ _ _ H)
    as (w' & calls & E).
  eexists _, w', calls. split; [exact E|]. split; reflexivity.
Qed.

Lemma checkPrivateFundsStatus_constants_witness :
  exists status w' calls,
    checkPrivateFundsStatus (balancesSdk "10000" "500") 56 wallet1 wallet2 WETH
                            world0
    = (Return status, w', calls)
    /\ mainWalletBalance status = "0"
    /\ transactionState status = IDLE.
Proof.
  apply (checkPrivateFundsStatus_constants (balancesSdk "10000" "500") 56
           wallet1 wallet2 WETH world0 "10000" "500").
  exists world0. split; reflexivity.
Defined.

(** ** Error wrapping of the flow phases *)



(** A thrown value that is not an [Error] is wrapped with what [String]
    renders of it. *)
Example phase_error_of_a_thrown_string :
  fst (fst (preparePrivateFunds
              {| shieldTokens := fun _ _ _ _ w => (Throw (Js.Value "boom"), w);
                 getShieldedBalance := ShieldModule.getShieldedBalance;
                 getTransactionStatus := ShieldModule.getTransactionStatus;
                 unshieldTokens := UnshieldModule.unshieldTokens runtime0;
                 deriveIncognitoAddress := IncognitoModule.deriveIncognitoAddress;
                 getIncognitoBalance := IncognitoModule.getIncognitoBalance |}
              1 wallet1 config0 world0))
  = Throw (Js.Error "Failed to prepare private funds: boom").
Proof. reflexivity. Qed.

(** ** Address routing of the flow phases *)

(** The SDK calls made by the three fund-moving phases. *)
Lemma flow_calls sdk chainId main wallet config w :
  snd (preparePrivateFunds sdk chainId main config w)
  = [CallShieldTokens main (cfg_token config) (cfg_amount config) chainId]
  /\ snd (exitPrivatePosition sdk chainId wallet config w)
     = [CallShieldTokens (address wallet) (cfg_token config)
                         (cfg_amount config) chainId]
  /\ snd (unshieldForTrading sdk chainId wallet config w)
     = [CallUnshieldTokens (address wallet) (cfg_token config)
                           (cfg_amount config) chainId].
Proof.
  repeat split; run_task; simpl.
  - destruct (shieldTokens sdk main _ _ chainId w) as [[r|e] w1]; reflexivity.
  - destruct (shieldTokens sdk (address wallet) _ _ chainId w) as [[r|e] w1];
      reflexivity.
  - destruct (unshieldTokens sdk (address wallet) _ _ chainId w) as [[r|e] w1];
      reflexivity.
Qed.

(** C8.  [preparePrivateFunds] makes one SDK call, [shieldTokens] with the
    given main wallet address as source, and on success returns the
    transaction the SDK gave for that source; [exitPrivatePosition] does the
    same with [incognitoWallet.address] as source; [unshieldForTrading]
    makes one SDK call, [unshieldTokens] with [incognitoWallet.address] as
    destination, and the transaction it returns has that address as
    [destinationAddress]. *)
Theorem flow_address_routing sdk chainId main wallet config w :
  (snd (preparePrivateFunds sdk chainId main config w)
   = [CallShieldTokens main (cfg_token config) (cfg_amount config) chainId]
   /\ forall tx w' calls,
       preparePrivateFunds sdk chainId main config w = (Return tx, w', calls) ->
       exists r,
         shieldTokens sdk main (cfg_token config) (cfg_amount config) chainId w
         = (Return r, w')
         /\ st_txHash tx = txHash r)
  /\ (snd (exitPrivatePosition sdk chainId wallet config w)
      = [CallShieldTokens (address wallet) (cfg_token config)
                          (cfg_amount config) chainId]
      /\ forall tx w' calls,
          exitPrivatePosition sdk chainId wallet config w
          = (Return tx, w', calls) ->
          exists r,
            shieldTokens sdk (address wallet) (cfg_token config)
                         (cfg_amount config) chainId w
            = (Return r, w')
            /\ st_txHash tx = txHash r)
  /\ (snd (unshieldForTrading sdk chainId wallet config w)
      = [CallUnshieldTokens (address wallet) (cfg_token config)
                            (cfg_amount config) chainId]
      /\ forall tx w' calls,
          unshieldForTrading sdk chainId wallet config w
          = (Return tx, w', calls) ->
          exists r,
            unshieldTokens sdk (address wallet) (cfg_token config)
                           (cfg_amount config) chainId w
            = (Return r, w')
            /\ ut_txHash tx = txHash r
            /\ destinationAddress tx = address wallet).
Proof.
  destruct (flow_calls sdk chainId main wallet config w) as (P & X & U).
  repeat split; trivial; intros tx w' calls; run_task; simpl.
  - destruct (shieldTokens sdk main _ _ chainId w) as [[r|e] w1];
      simpl; intros E; inversion E; eauto.
  - destruct (shieldTokens sdk (address wallet) _ _ chainId w) as [[r|e] w1];
      simpl; intros E; inversion E; eauto.
  - destruct (unshieldTokens sdk (address wallet) _ _ chainId w) as [[r|e] w1];
      simpl; intros E; inversion E; eauto.
Qed.

Lemma flow_address_routing_witness :
  (exists r,
      ShieldModule.shieldTokens runtime0 wallet1 USDC "10000" 1 world0
      = (Return r, {| now := 0; draws := 1 |})
      /\ hash0 = txHash r)
  /\ (exists r,
         ShieldModule.shieldTokens runtime0 wallet2 USDC "10000" 1 world0
         = (Return r, {| now := 0; draws := 1 |})
         /\ hash0 = txHash r)
  /\ (exists r,
         UnshieldModule.unshieldTokens runtime0 wallet2 USDC "10000" 1 world0
         = (Return r, {| now := 0; draws := 1 |})
         /\ hash0 = txHash r
         /\ wallet2 = wallet2).
Proof.
  destruct (flow_address_routing (repositorySdk runtime0) 1 wallet1
              (mkWallet wallet2 wallet1 1 true 0 None) config0 world0)
    as ((_ & Hp) & (_ & Hx) & (_ & Hu)).
  split; [|split].
  - exact (Hp (mkShieldTx hash0 USDC "10000" PENDING 0 None None)
              {| now := 0; draws := 1 |}
              [CallShieldTokens wallet1 USDC "10000" 1] eq_refl).
  - exact (Hx (mkShieldTx hash0 USDC "10000" PENDING 0 None None)
              {| now := 0; draws := 1 |}
              [CallShieldTokens wallet2 USDC "10000" 1] eq_refl).
  - exact (Hu (mkUnshieldTx hash0 USDC "10000" wallet2 PENDING 0 None None)
              {| now := 0; draws := 1 |}
              [CallUnshieldTokens wallet2 USDC "10000" 1] eq_refl).
Defined.

(** The entry and exit shields of one session name different sources as soon
    as the incognito address differs from the main one. *)
Corollary shield_sources_not_swapped sdk chainId wallet config w w' :
  address wallet <> mainWalletAddress wallet ->
  snd (preparePrivateFunds sdk chainId (mainWalletAddress wallet) config w)
  <> [CallShieldTokens (address wallet) (cfg_token config) (cfg_amount config)
                       chainId]
  /\ snd (exitPrivatePosition sdk chainId wallet config w')
     <> [CallShieldTokens (mainWalletAddress wallet) (cfg_token config)
                          (cfg_amount config) chainId].
Proof.
  intros Hne.
  destruct (flow_calls sdk chainId (mainWalletAddress wallet) wallet
              config w) as (P & _).
  destruct (flow_calls sdk chainId (mainWalletAddress wallet) wallet
              config w') as (_ & X & _).
  rewrite P, X. split; intros E; inversion E; congruence.
Qed.

(** ** Validation in the SDK modules *)

(** C6.  Address validation: an address that does not have the 20-byte hex
    shape (the empty string included) makes [shieldTokens], [unshieldTokens],
    [deriveIncognitoAddress], [getShieldedBalance] and [getIncognitoBalance]
    throw their invalid-address error, the world left as it was: nothing was
    drawn or submitted. *)
Theorem invalid_address_rejected rt addr token amount chainId w :
  address_shape addr = false ->
  ShieldModule.shieldTokens rt addr token amount chainId w
  = (Throw (Js.Error "Invalid wallet address"), w)
  /\ UnshieldModule.unshieldTokens rt addr token amount chainId w
     = (Throw (Js.Error "Invalid destination address"), w)
  /\ IncognitoModule.deriveIncognitoAddress addr chainId w
     = (Throw (Js.Error "Invalid main wallet address"), w)
  /\ ShieldModule.getShieldedBalance addr token chainId w
     = (Throw (Js.Error "Invalid wallet address"), w)
  /\ IncognitoModule.getIncognitoBalance addr token chainId w
     = (Throw (Js.Error "Invalid incognito address"), w).
Proof.
  unfold address_shape. intros H.
  unfold ShieldModule.shieldTokens, UnshieldModule.unshieldTokens,
    IncognitoModule.deriveIncognitoAddress, ShieldModule.getShieldedBalance,
    IncognitoModule.getIncognitoBalance.
  rewrite H, orb_true_r. repeat split.
Qed.

Lemma invalid_address_rejected_witness :
  ShieldModule.shieldTokens runtime0 "" USDC "1000" 1 world0
  = (Throw (Js.Error "Invalid wallet address"), world0)
  /\ UnshieldModule.unshieldTokens runtime0 "" USDC "1000" 1 world0
     = (Throw (Js.Error "Invalid destination address"), world0)
  /\ IncognitoModule.deriveIncognitoAddress "" 1 world0
     = (Throw (Js.Error "Invalid main wallet address"), world0)
  /\ ShieldModule.getShieldedBalance "" USDC 1 world0
     = (Throw (Js.Error "Invalid wallet address"), world0)
  /\ IncognitoModule.getIncognitoBalance "" USDC 1 world0
     = (Throw (Js.Error "Invalid incognito address"), world0).
Proof.
  apply (invalid_address_rejected runtime0 "" USDC "1000" 1 world0).
  reflexivity.
Defined.

(** An amount that is empty, or that parses to a number [<= 0], is rejected
    by [shieldTokens] and [unshieldTokens] before anything is submitted. *)
Lemma non_positive_amount_rejected rt addr token amount chainId w :
  address_shape addr = true ->
  amount = "" \/ Js.le_zero (Js.parseFloat amount) = true ->
  ShieldModule.shieldTokens rt addr token amount chainId w
  = (Throw (Js.Error "Invalid amount"), w)
  /\ UnshieldModule.unshieldTokens rt addr token amount chainId w
     = (Throw (Js.Error "Invalid amount"), w).
Proof.
  unfold address_shape. intros Ha Hm.
  unfold ShieldModule.shieldTokens, UnshieldModule.unshieldTokens.
  assert (Js.truthy addr = true) as Ht
    by (destruct addr; [discriminate Ha | reflexivity]).
  rewrite Ha, Ht. simpl.
  destruct Hm as [-> | ->]; [|rewrite orb_true_r]; split; reflexivity.
Qed.

Example rejected_amounts :
  map (fun a => fst (ShieldModule.shieldTokens runtime0 wallet1 USDC a 1 world0))
      [""; "0"; "-100"; "-10"; "0.000"; "-0"; "-Infinity"]
  = repeat (Throw (Js.Error "Invalid amount")) 7.
Proof. vm_compute. reflexivity. Qed.

(** An amount that parses to [NaN] passes the test [parseFloat(amount) <= 0]. *)
Lemma nan_amount_not_rejected rt addr token amount chainId w :
  address_shape addr = true ->
  amount <> "" ->
  Js.parseFloat amount = Js.NaN ->
  fst (ShieldModule.shieldTokens rt addr token amount chainId w)
  = Return {| txHash := "0x" ++ Js.padEnd 64 "0"
                          (Js.slice_from 2 (random_hex rt (draws w)));
              state := PENDING |}
  /\ fst (UnshieldModule.unshieldTokens rt addr token amount chainId w)
     = Return {| txHash := "0x" ++ Js.padEnd 64 "0"
                             (Js.slice_from 2 (random_hex rt (draws w)));
                 state := PENDING |}.
Proof.
  unfold address_shape. intros Ha Hne Hn.
  unfold ShieldModule.shieldTokens, UnshieldModule.unshieldTokens.
  assert (Js.truthy addr = true) as Ht
    by (destruct addr; [discriminate Ha | reflexivity]).
  assert (Js.truthy amount = true) as Hm
    by (destruct amount; [congruence | reflexivity]).
  rewrite Ha, Ht, Hm, Hn. split; reflexivity.
Qed.

(** C5, at the amount ["abc"].  The specification wants every non-numeric
    amount rejected with the invalid-amount error before anything is
    submitted; the code does not: [shieldTokens] and [unshieldTokens],
    called with a well-formed address and the amount ["abc"], draw an
    operation reference and return a pending transaction. *)
Theorem non_numeric_amount_accepted :
  ShieldModule.shieldTokens runtime0 wallet1 USDC "abc" 1 world0
  = (Return {| txHash := hash0; state := PENDING |},
     {| now := 0; draws := 1 |})
  /\ UnshieldModule.unshieldTokens runtime0 wallet1 WETH "abc" 1 world0
     = (Return {| txHash := hash0; state := PENDING |},
        {| now := 0; draws := 1 |}).
Proof. split; vm_compute; reflexivity. Qed.

(** ** Address derivation *)

Section StringFacts.

Lemma string_app_assoc (a b c : string) : (a ++ b) ++ c = a ++ (b ++ c).
Proof. induction a as [|x a IH]; simpl; [reflexivity | now rewrite IH]. Qed.

Lemma string_app_empty (a : string) : a ++ "" = a.
Proof. induction a as [|x a IH]; simpl; [reflexivity | now rewrite IH]. Qed.

Lemma string_length_app (a b : string) :
  String.length (a ++ b) = (String.length a + String.length b)%nat.
Proof. induction a as [|x a IH]; simpl; [reflexivity | now rewrite IH]. Qed.

Lemma string_forall_app p (a b : string) :
  string_forall p (a ++ b) = string_forall p a && string_forall p b.
Proof.
  induction a as [|x a IH]; simpl; [reflexivity|].
  now rewrite IH, andb_assoc.
Qed.

Lemma string_forall_repeat p c n :
  p c = true -> string_forall p (Js.repeat_char c n) = true.
Proof. intros H. induction n as [|n IH]; simpl; [reflexivity | now rewrite H]. Qed.

Lemma length_repeat_char c n : String.length (Js.repeat_char c n) = n.
Proof. induction n as [|n IH]; simpl; [reflexivity | now rewrite IH]. Qed.

Lemma string_forall_impl (p q : ascii -> bool) (s : string) :
  (forall c, p c = true -> q c = true) ->
  string_forall p s = true -> string_forall q s = true.
Proof.
  intros Hpq. induction s as [|x s IH]; simpl; [reflexivity|].
  intros H. apply andb_true_iff in H as [Hx Hs].
  now rewrite (Hpq _ Hx), (IH Hs).
Qed.

Lemma slice_to_whole (n : nat) (s : string) :
  (String.length s <= n)%nat -> Js.slice_to n s = s.
Proof.
  revert n. induction s as [|x s IH]; intros [|n] H; simpl in *;
    try reflexivity; try lia.
  rewrite IH; [reflexivity | lia].
Qed.


Lemma hex_run_of_forall (n : nat) (s : string) :
  String.length s = n -> string_forall Js.is_hex s = true ->
  Js.hex_run n s = true.
Proof.
  revert n. induction s as [|x s IH]; intros [|n] Hl Hf; simpl in *;
    try reflexivity; try discriminate.
  apply andb_true_iff in Hf as [Hx Hs].
  rewrite Hx. apply IH; [lia | exact Hs].
Qed.

Lemma lower_hex_is_hex c : is_lower_hex c = true -> Js.is_hex c = true.
Proof.
  unfold is_lower_hex, Js.is_hex.
  destruct (Js.char_in "0" "9" c), (Js.char_in "a" "f" c),
    (Js.char_in "A" "F" c); simpl; auto.
Qed.

End StringFacts.

Lemma toInt32_range z : - 2 ^ 31 <= Js.toInt32 z < 2 ^ 31.
Proof.
  unfold Js.toInt32.
  assert (0 <= z mod 2 ^ 32 < 2 ^ 32) as Hm by (apply Z.mod_pos_bound; lia).
  destruct (z mod 2 ^ 32 <? 2 ^ 31) eqn:E.
  - apply Z.ltb_lt in E. lia.
  - apply Z.ltb_ge in E. lia.
Qed.

(** The hash stays a signed 32-bit integer. *)
Lemma simpleHash_loop_range input hash :
  - 2 ^ 31 <= hash < 2 ^ 31 ->
  - 2 ^ 31 <= IncognitoModule.simpleHash_loop input hash < 2 ^ 31.
Proof.
  revert hash. induction input as [|c rest IH]; intros hash H; simpl.
  - exact H.
  - apply IH. unfold Js.band. apply toInt32_range.
Qed.

Lemma digit_char_lower_hex d :
  0 <= d < 16 -> is_lower_hex (Js.digit_char d) = true.
Proof.
  intros H.
  assert (d = 0 \/ d = 1 \/ d = 2 \/ d = 3 \/ d = 4 \/ d = 5 \/ d = 6 \/ d = 7
          \/ d = 8 \/ d = 9 \/ d = 10 \/ d = 11 \/ d = 12 \/ d = 13 \/ d = 14
          \/ d = 15) as Hd by lia.
  repeat (destruct Hd as [-> | Hd]; [reflexivity|]). subst d. reflexivity.
Qed.

(** A number below [16^k] prints in at most [k] lower-case hex digits. *)
Lemma digits_onto_hex fuel :
  forall (k : nat) n acc,
    (1 <= k)%nat -> 0 <= n < 16 ^ Z.of_nat k ->
    exists ds,
      Js.digits_onto fuel 16 n acc = ds ++ acc
      /\ (String.length ds <= k)%nat
      /\ string_forall is_lower_hex ds = true.
Proof.
  induction fuel as [|fuel IH]; intros k n acc Hk Hn; simpl.
  - exists "". repeat split. simpl. lia.
  - destruct (n <? 16) eqn:E.
    + apply Z.ltb_lt in E. exists (String (Js.digit_char n) "").
      simpl. rewrite digit_char_lower_hex by lia. repeat split. lia.
    + apply Z.ltb_ge in E.
      destruct k as [|[|k]]; [lia | simpl in Hn; lia |].
      assert (16 ^ Z.of_nat (S (S k)) = 16 * 16 ^ Z.of_nat (S k)) as Hp.
      { rewrite (Nat2Z.inj_succ (S k)), Z.pow_succ_r by lia. reflexivity. }
      destruct (IH (S k) (n / 16) (String (Js.digit_char (n mod 16)) acc))
        as (ds & Hd & Hl & Hf).
      * lia.
      * split; [apply Z.div_pos; lia|].
        apply Z.div_lt_upper_bound; lia.
      * exists (ds ++ String (Js.digit_char (n mod 16)) "").
        rewrite Hd, string_app_assoc, string_length_app, string_forall_app, Hf.
        simpl. rewrite digit_char_lower_hex
          by (pose proof (Z.mod_pos_bound n 16); lia).
        repeat split. lia.
Qed.

(** [simpleHash] yields one block of 8 lower-case hex digits, five times. *)
Lemma simpleHash_blocks input :
  exists block,
    IncognitoModule.simpleHash input = five_blocks block
    /\ String.length block = 8%nat
    /\ string_forall is_lower_hex block = true.
Proof.
  unfold IncognitoModule.simpleHash.
  assert (- 2 ^ 31 <= IncognitoModule.simpleHash_loop input 0 < 2 ^ 31) as Hr
    by (apply simpleHash_loop_range; lia).
  set (hash := IncognitoModule.simpleHash_loop input 0) in *.
  unfold Js.toString_radix.
  assert ((Z.abs hash <? 0) = false) as -> by (apply Z.ltb_ge; lia).
  rewrite Z.abs_idemp.
  destruct (digits_onto_hex (S (Z.to_nat (Z.log2 (Z.abs hash)))) 8
              (Z.abs hash) "") as (ds & -> & Hl & Hf); [lia | simpl; lia |].
  rewrite string_app_empty.
  exists (Js.padStart 8 "0" ds).
  assert (String.length (Js.padStart 8 "0" ds) = 8%nat) as Hlen.
  { unfold Js.padStart. rewrite string_length_app, length_repeat_char. lia. }
  repeat split.
  - apply slice_to_whole. unfold five_blocks.
    rewrite !string_length_app, Hlen. simpl. lia.
  - exact Hlen.
  - unfold Js.padStart. rewrite string_forall_app, Hf.
    rewrite string_forall_repeat; reflexivity.
Qed.

(** What [deriveIncognitoAddress] returns on a well-formed address. *)
Lemma deriveIncognitoAddress_blocks publicAddress networkId :
  address_shape publicAddress = true ->
  exists block,
    (forall w,
        IncognitoModule.deriveIncognitoAddress publicAddress networkId w
        = (Return ("0x" ++ five_blocks block), w))
    /\ String.length block = 8%nat
    /\ string_forall is_lower_hex block = true.
Proof.
  unfold address_shape. intros Ha.
  destruct (simpleHash_blocks (publicAddress ++ Js.toString networkId))
    as (block & Hb & Hl & Hf).
  exists block. repeat split; trivial.
  intros w. unfold IncognitoModule.deriveIncognitoAddress.
  assert (Js.truthy publicAddress = true) as Ht
    by (destruct publicAddress; [discriminate Ha | reflexivity]).
  rewrite Ha, Ht, Hb. simpl negb. simpl orb. cbv iota.
  rewrite slice_to_whole; [reflexivity|].
  unfold five_blocks. rewrite !string_length_app, Hl. simpl. lia.
Qed.




(** The derivations exercised by the unit tests of the module. *)
Example deriveIncognitoAddress_samples :
  map (fun p => fst (IncognitoModule.deriveIncognitoAddress (fst p) (snd p) world0))
      [(wallet1, 1); (wallet1, 137); (wallet2, 1)]
  = [Return "0x1e0c4f831e0c4f831e0c4f831e0c4f831e0c4f83";
     Return "0x33c98ba133c98ba133c98ba133c98ba133c98ba1";
     Return "0x61aedc7d61aedc7d61aedc7d61aedc7d61aedc7d"].
Proof. vm_compute. reflexivity. Qed.

(** ** The confirmation tracker *)

(** One iteration of the loop. *)
Lemma wait_loop_step rt sdk fuel txHash maxTime startTime w :
  wait_loop rt sdk (S fuel) txHash maxTime startTime w
  = if now w - startTime <? maxTime then
      match getTransactionStatus sdk txHash w with
      | (Return st, w1) =>
          if state_eqb st COMPLETED then
            Some (Return st, w1, [CallGetTransactionStatus txHash])
          else if state_eqb st FAILED then
            Some (Throw (Js.Error "Transaction failed"), w1,
                  [CallGetTransactionStatus txHash])
          else
            match wait_loop rt sdk fuel txHash maxTime startTime
                            (setTimeout rt POLLING_INTERVAL w1) with
            | Some (r, w2, t2) =>
                Some (r, w2, CallGetTransactionStatus txHash :: t2)
            | None => None
            end
      | (Throw e, w1) => Some (Throw e, w1, [CallGetTransactionStatus txHash])
      end
    else Some (Throw (Js.Error "Transaction confirmation timeout"), w, []).
Proof.
  cbn [wait_loop]. unfold call_getTransactionStatus, await.
  destruct (getTransactionStatus sdk txHash w) as [[st|e] w1]; reflexivity.
Qed.

(** When the status query always answers with a state, the call can only end
    in one of three ways. *)
Lemma wait_loop_results rt sdk txHash maxTime startTime :
  (forall w0, exists st w1,
      getTransactionStatus sdk txHash w0 = (Return st, w1)) ->
  forall fuel w r w' calls,
    wait_loop rt sdk fuel txHash maxTime startTime w = Some (r, w', calls) ->
    r = Return COMPLETED
    \/ r = Throw (Js.Error "Transaction failed")
    \/ r = Throw (Js.Error "Transaction confirmation timeout").
Proof.
  intros Hp. induction fuel as [|fuel IH]; intros w r w' calls;
    [discriminate|].
  rewrite wait_loop_step.
  destruct (now w - startTime <? maxTime);
    [|intros E; inversion E; auto].
  destruct (Hp w) as (st & w1 & ->).
  destruct st; simpl; try (intros E; inversion E; now auto);
    destruct (wait_loop rt sdk fuel txHash maxTime startTime
                        (setTimeout rt POLLING_INTERVAL w1))
      as [[[r2 w2] t2]|] eqn:Er; intros E; inversion E; subst;
    eapply IH; eassumption.
Qed.

Lemma option_trace_nil {A : Type} (o : option (A * World * list Call)) :
  match o with
  | Some (r, w2, t2) => Some (r, w2, ([] ++ t2)%list)
  | None => None
  end = o.
Proof. destruct o as [[[r w2] t2]|]; reflexivity. Qed.

(** After [k] iterations that neither returned nor threw, the loop goes on
    from the world they left, with [k] status queries made. *)
Lemma wait_loop_after_polls rt sdk txHash maxTime startTime k :
  forall w wk fuel,
    after_polls rt sdk k txHash maxTime startTime w = Some wk ->
    wait_loop rt sdk (k + fuel) txHash maxTime startTime w
    = match wait_loop rt sdk fuel txHash maxTime startTime wk with
      | Some (r, w2, t2) =>
          Some (r, w2,
                (repeat (CallGetTransactionStatus txHash) k ++ t2)%list)
      | None => None
      end.
Proof.
  induction k as [|k IH]; intros w wk fuel H; simpl in H.
  - inversion H; subst. simpl. symmetry. apply option_trace_nil.
  - simpl. unfold call_getTransactionStatus, await.
    destruct (now w - startTime <? maxTime); [|discriminate H].
    destruct (getTransactionStatus sdk txHash w) as [[st|e] w1];
      [|discriminate H].
    destruct (state_eqb st COMPLETED); [discriminate H|].
    destruct (state_eqb st FAILED); [discriminate H|].
    simpl in H. rewrite (IH _ _ fuel H).
    destruct (wait_loop rt sdk fuel txHash maxTime startTime wk)
      as [[[r w2] t2]|]; reflexivity.
Qed.

Lemma repeat_snoc {A : Type} (x : A) (n : nat) :
  (repeat x n ++ [x])%list = repeat x (S n).
Proof. induction n as [|n IH]; simpl; [reflexivity | now rewrite IH]. Qed.

(** However the loop is left, it is through one of four exits. *)
Lemma wait_loop_exits rt sdk txHash maxTime startTime :
  forall fuel w r w' calls,
    wait_loop rt sdk fuel txHash maxTime startTime w = Some (r, w', calls) ->
    r = Return COMPLETED
    \/ r = Throw (Js.Error "Transaction failed")
    \/ r = Throw (Js.Error "Transaction confirmation timeout")
    \/ exists e wq,
        r = Throw e /\ getTransactionStatus sdk txHash wq = (Throw e, w').
Proof.
  induction fuel as [|fuel IH]; intros w r w' calls; [discriminate|].
  rewrite wait_loop_step.
  destruct (now w - startTime <? maxTime);
    [|intros E; inversion E; auto].
  destruct (getTransactionStatus sdk txHash w) as [[st|e] w1] eqn:Ep;
    [|intros E; inversion E; subst; right; right; right; eauto].
  destruct st; simpl; try (intros E; inversion E; now auto);
    destruct (wait_loop rt sdk fuel txHash maxTime startTime
                        (setTimeout rt POLLING_INTERVAL w1))
      as [[[r2 w2] t2]|] eqn:Er; intros E; inversion E; subst;
    eapply IH; eassumption.
Qed.

(** C2, as amended.  [waitForTransactionConfirmation] has four outcomes.
    Let the first [k] polls have returned non-terminal states within the
    wait budget (the given one, 70000 ms when none is given).  If the next
    poll returns [COMPLETED], the call returns [COMPLETED] at once; if it
    returns [FAILED], the call throws "Transaction failed" at once; if the
    poll itself throws, the call throws that same error at once; if instead
    the elapsed time has reached the budget, the call throws the different
    error "Transaction confirmation timeout".  Whatever the call ends with
    is one of these four. *)
Theorem waitForTransactionConfirmation_outcomes
    rt sdk txHash maxWaitTime w k wk fuel :
  after_polls rt sdk k txHash (or_else maxWaitTime DEFAULT_MAX_INDEXING_TIME)
              (now w) w = Some wk ->
  (k < fuel)%nat ->
  (forall w1,
      now wk - now w < or_else maxWaitTime DEFAULT_MAX_INDEXING_TIME ->
      getTransactionStatus sdk txHash wk = (Return COMPLETED, w1) ->
      waitForTransactionConfirmation rt sdk fuel txHash maxWaitTime w
      = Some (Return COMPLETED, w1,
              repeat (CallGetTransactionStatus txHash) (S k)))
  /\ (forall w1,
         now wk - now w < or_else maxWaitTime DEFAULT_MAX_INDEXING_TIME ->
         getTransactionStatus sdk txHash wk = (Return FAILED, w1) ->
         waitForTransactionConfirmation rt sdk fuel txHash maxWaitTime w
         = Some (Throw (Js.Error "Transaction failed"), w1,
                 repeat (CallGetTransactionStatus txHash) (S k)))
  /\ (forall e w1,
         now wk - now w < or_else maxWaitTime DEFAULT_MAX_INDEXING_TIME ->
         getTransactionStatus sdk txHash wk = (Throw e, w1) ->
         waitForTransactionConfirmation rt sdk fuel txHash maxWaitTime w
         = Some (Throw e, w1,
                 repeat (CallGetTransactionStatus txHash) (S k)))
  /\ (or_else maxWaitTime DEFAULT_MAX_INDEXING_TIME <= now wk - now w ->
      waitForTransactionConfirmation rt sdk fuel txHash maxWaitTime w
      = Some (Throw (Js.Error "Transaction confirmation timeout"), wk,
              repeat (CallGetTransactionStatus txHash) k))
  /\ Js.Error "Transaction failed"
     <> Js.Error "Transaction confirmation timeout"
  /\ or_else None DEFAULT_MAX_INDEXING_TIME = 70000
  /\ (forall r w' calls,
        waitForTransactionConfirmation rt sdk fuel txHash maxWaitTime w
        = Some (r, w', calls) ->
        r = Return COMPLETED
        \/ r = Throw (Js.Error "Transaction failed")
        \/ r = Throw (Js.Error "Transaction confirmation timeout")
        \/ exists e wq,
            r = Throw e
            /\ getTransactionStatus sdk txHash wq = (Throw e, w')).
Proof.
  intros Hk Hf.
  assert (forall A B C D E F G : Prop,
             (A /\ B /\ C /\ D /\ E /\ F) -> G ->
             A /\ B /\ C /\ D /\ E /\ F /\ G) as Hsplit by tauto.
  apply Hsplit; clear Hsplit;
    [|intros r w' calls; apply wait_loop_exits].
  unfold waitForTransactionConfirmation.
  replace fuel with (k + S (fuel - S k))%nat by lia.
  rewrite (wait_loop_after_polls _ _ _ _ _ _ _ _ _ Hk), wait_loop_step.
  repeat split.
  - intros w1 Ht Hp. apply Z.ltb_lt in Ht. rewrite Ht, Hp. simpl.
    now rewrite repeat_snoc.
  - intros w1 Ht Hp. apply Z.ltb_lt in Ht. rewrite Ht, Hp. simpl.
    now rewrite repeat_snoc.
  - intros e w1 Ht Hp. apply Z.ltb_lt in Ht. rewrite Ht, Hp.
    now rewrite repeat_snoc.
  - intros Ht. apply Z.ltb_ge in Ht. rewrite Ht. now rewrite app_nil_r.
  - discriminate.
Qed.

Lemma waitForTransactionConfirmation_outcomes_witness :
  waitForTransactionConfirmation runtime0 scriptedSdk 3 tx_completing None
                                 world0
  = Some (Return COMPLETED, {| now := 4000; draws := 0 |},
          repeat (CallGetTransactionStatus tx_completing) 3)
  /\ waitForTransactionConfirmation runtime0 scriptedSdk 2 tx_failing None
                                    world0
     = Some (Throw (Js.Error "Transaction failed"),
             {| now := 2000; draws := 0 |},
             repeat (CallGetTransactionStatus tx_failing) 2)
  /\ waitForTransactionConfirmation runtime0 (repositorySdk runtime0) 1
                                    "0xabc" (Some 1000) world0
     = Some (Throw (Js.Error "Invalid transaction hash"), world0,
             repeat (CallGetTransactionStatus "0xabc") 1)
  /\ waitForTransactionConfirmation runtime0 scriptedSdk 2 tx_stuck
                                    (Some 1000) world0
     = Some (Throw (Js.Error "Transaction confirmation timeout"),
             {| now := 2000; draws := 0 |},
             repeat (CallGetTransactionStatus tx_stuck) 1)
  /\ (Throw (Js.Error "Transaction confirmation timeout")
      = Return COMPLETED
      \/ @Throw TransactionState (Js.Error "Transaction confirmation timeout")
         = Throw (Js.Error "Transaction failed")
      \/ @Throw TransactionState (Js.Error "Transaction confirmation timeout")
         = Throw (Js.Error "Transaction confirmation timeout")
      \/ exists e wq,
          @Throw TransactionState (Js.Error "Transaction confirmation timeout")
          = Throw e
          /\ getTransactionStatus scriptedSdk tx_stuck wq
             = (Throw e, {| now := 2000; draws := 0 |})).
Proof.
  split; [|split; [|split; [|split]]].
  - refine (proj1 (waitForTransactionConfirmation_outcomes runtime0
                     scriptedSdk tx_completing None world0 2
                     {| now := 4000; draws := 0 |} 3 eq_refl _) _ _ eq_refl).
    + lia.
    + reflexivity.
  - refine (proj1 (proj2 (waitForTransactionConfirmation_outcomes runtime0
                     scriptedSdk tx_failing None world0 1
                     {| now := 2000; draws := 0 |} 2 eq_refl _)) _ _ eq_refl).
    + lia.
    + reflexivity.
  - refine (proj1 (proj2 (proj2 (waitForTransactionConfirmation_outcomes
                     runtime0 (repositorySdk runtime0) "0xabc" (Some 1000)
                     world0 0 world0 1 eq_refl _))) _ _ _ eq_refl).
    + lia.
    + reflexivity.
  - refine (proj1 (proj2 (proj2 (proj2
              (waitForTransactionConfirmation_outcomes
                 runtime0 scriptedSdk tx_stuck (Some 1000) world0 1
                 {| now := 2000; draws := 0 |} 2 eq_refl _)))) _).
    + lia.
    + discriminate.
  - refine (proj2 (proj2 (proj2 (proj2 (proj2 (proj2
              (waitForTransactionConfirmation_outcomes
                 runtime0 scriptedSdk tx_stuck (Some 1000) world0 1
                 {| now := 2000; draws := 0 |} 2 eq_refl _))))))
              _ {| now := 2000; draws := 0 |}
              (repeat (CallGetTransactionStatus tx_stuck) 1) eq_refl).
    lia.
Defined.

(** C2 does not hold as stated: there is a fourth outcome.  On the modules
    of the repository a malformed operation reference makes the status
    query throw, and the call ends with that error, which is neither the
    completed state, nor "Transaction failed", nor "Transaction confirmation
    timeout". *)
Lemma waitForTransactionConfirmation_fourth_outcome :
  waitForTransactionConfirmation runtime0 (repositorySdk runtime0) 1 "0xabc"
                                 None world0
  = Some (Throw (Js.Error "Invalid transaction hash"), world0,
          [CallGetTransactionStatus "0xabc"])
  /\ @Throw TransactionState (Js.Error "Invalid transaction hash")
     <> Return COMPLETED
  /\ Js.Error "Invalid transaction hash" <> Js.Error "Transaction failed"
  /\ Js.Error "Invalid transaction hash"
     <> Js.Error "Transaction confirmation timeout".
Proof.
  split; [vm_compute; reflexivity|].
  repeat split; discriminate.
Qed.

(** With a clock that the status query does not turn back and timers that do
    not fire early, the loop ends: [n] iterations of 2000 ms exhaust what is
    left of the budget. *)
Lemma wait_loop_terminates rt sdk txHash maxTime startTime :
  (forall t, 0 <= timer_lag rt t) ->
  (forall w0, now w0 <= now (snd (getTransactionStatus sdk txHash w0))) ->
  forall (n : nat) w,
    maxTime - (now w - startTime) <= POLLING_INTERVAL * Z.of_nat n ->
    exists r, wait_loop rt sdk (S n) txHash maxTime startTime w = Some r.
Proof.
  intros Hlag Hmono. unfold POLLING_INTERVAL.
  induction n as [|n IH]; intros w Hn.
  - simpl. destruct (now w - startTime <? maxTime) eqn:E; [|eauto].
    apply Z.ltb_lt in E. lia.
  - rewrite wait_loop_step.
    destruct (now w - startTime <? maxTime) eqn:E; [|eauto].
    pose proof (Hmono w) as Hw.
    destruct (getTransactionStatus sdk txHash w) as [[st|e] w1]; [|eauto].
    destruct (state_eqb st COMPLETED); [eauto|].
    destruct (state_eqb st FAILED); [eauto|].
    destruct (IH (setTimeout rt POLLING_INTERVAL w1)) as ([[r w2] t2] & Hr).
    + unfold setTimeout, POLLING_INTERVAL. cbn [now snd] in *.
      pose proof (Hlag (now w1)). lia.
    + rewrite Hr. eauto.
Qed.

(** Under the same assumptions on the clock, [waitForTransactionConfirmation]
    returns or throws once given enough fuel. *)
Lemma waitForTransactionConfirmation_terminates rt sdk txHash maxWaitTime w :
  (forall t, 0 <= timer_lag rt t) ->
  (forall w0, now w0 <= now (snd (getTransactionStatus sdk txHash w0))) ->
  exists fuel r,
    waitForTransactionConfirmation rt sdk fuel txHash maxWaitTime w = Some r.
Proof.
  intros Hlag Hmono. unfold waitForTransactionConfirmation.
  set (maxTime := or_else maxWaitTime DEFAULT_MAX_INDEXING_TIME).
  exists (S (Z.to_nat maxTime)).
  apply wait_loop_terminates; trivial.
  unfold POLLING_INTERVAL. lia.
Qed.

(** The first iteration of the loop, when the budget is positive: the status
    is queried before anything else can happen. *)
Lemma wait_loop_first_poll rt sdk txHash maxTime w fuel r w' calls :
  0 < maxTime ->
  wait_loop rt sdk fuel txHash maxTime (now w) w = Some (r, w', calls) ->
  exists rest, calls = CallGetTransactionStatus txHash :: rest.
Proof.
  intros Hpos. destruct fuel as [|fuel]; [discriminate|].
  rewrite wait_loop_step.
  assert ((now w - now w <? maxTime) = true) as -> by (apply Z.ltb_lt; lia).
  destruct (getTransactionStatus sdk txHash w) as [[st|e] w1].
  - destruct (state_eqb st COMPLETED); [intros E; inversion E; eauto|].
    destruct (state_eqb st FAILED); [intros E; inversion E; eauto|].
    destruct (wait_loop rt sdk fuel txHash maxTime (now w)
                        (setTimeout rt POLLING_INTERVAL w1))
      as [[[r2 w2] t2]|]; intros E; inversion E; simpl; eauto.
  - intros E; inversion E; eauto.
Qed.

(** C9.  When [maxWaitTime] is omitted or 0, the loop runs with the default
    budget of 70000 ms, and whatever the call ends with (a timeout included)
    comes after at least one status query. *)
Theorem waitForTransactionConfirmation_default_budget
    rt sdk txHash maxWaitTime w fuel :
  maxWaitTime = None \/ maxWaitTime = Some 0 ->
  or_else maxWaitTime DEFAULT_MAX_INDEXING_TIME = 70000
  /\ waitForTransactionConfirmation rt sdk fuel txHash maxWaitTime w
     = wait_loop rt sdk fuel txHash 70000 (now w) w
  /\ (forall r w' calls,
        waitForTransactionConfirmation rt sdk fuel txHash maxWaitTime w
        = Some (r, w', calls) ->
        exists rest, calls = CallGetTransactionStatus txHash :: rest).
Proof.
  intros H.
  assert (or_else maxWaitTime DEFAULT_MAX_INDEXING_TIME = 70000) as Hb
    by (destruct H as [-> | ->]; reflexivity).
  unfold waitForTransactionConfirmation. rewrite Hb.
  repeat split. intros r w' calls.
  apply wait_loop_first_poll. lia.
Qed.

Lemma waitForTransactionConfirmation_default_budget_witness :
  or_else (Some 0) DEFAULT_MAX_INDEXING_TIME = 70000
  /\ waitForTransactionConfirmation runtime0 scriptedSdk 40 tx_stuck (Some 0)
                                    world0
     = wait_loop runtime0 scriptedSdk 40 tx_stuck 70000 0 world0
  /\ exists rest,
       repeat (CallGetTransactionStatus tx_stuck) 35
       = CallGetTransactionStatus tx_stuck :: rest.
Proof.
  destruct (waitForTransactionConfirmation_default_budget runtime0 scriptedSdk
              tx_stuck (Some 0) world0 40 (or_intror eq_refl))
    as (Hb & Hw & Hp).
  split; [exact Hb|]. split; [exact Hw|].
  apply (Hp (Throw (Js.Error "Transaction confirmation timeout"))
            {| now := 70000; draws := 0 |}).
  vm_compute. reflexivity.
Defined.

(** A zero budget is replaced by the default, a negative one is not: the
    call then times out without a single status query. *)
Example negative_budget_polls_nothing :
  waitForTransactionConfirmation runtime0 scriptedSdk 1 tx_stuck (Some (-1))
                                 world0
  = Some (Throw (Js.Error "Transaction confirmation timeout"), world0, []).
Proof. reflexivity. Qed.

(** The tracker on the modules of the repository: the status query answers
    [COMPLETED] at once for a well-formed reference, and its own error for a
    malformed one is passed on as it is. *)
Example waitForTransactionConfirmation_on_repository_modules :
  waitForTransactionConfirmation runtime0 (repositorySdk runtime0) 1
                                 tx_completing None world0
  = Some (Return COMPLETED, world0, [CallGetTransactionStatus tx_completing])
  /\ waitForTransactionConfirmation runtime0 (repositorySdk runtime0) 1
                                    "0xabc" None world0
     = Some (Throw (Js.Error "Invalid transaction hash"), world0,
             [CallGetTransactionStatus "0xabc"]).
Proof. split; vm_compute; reflexivity. Qed.

(** ** Further properties of the SDK modules *)

Lemma hex_run_forall (n : nat) (s : string) :
  Js.hex_run n s = true ->
  String.length s = n /\ string_forall Js.is_hex s = true.
Proof.
  revert n. induction s as [|x s IH]; intros [|n] H; simpl in *;
    try discriminate; [split; reflexivity|].
  apply andb_true_iff in H as [Hx Hs].
  destruct (IH _ Hs) as [Hl Hf]. rewrite Hx, Hf, Hl. split; reflexivity.
Qed.

(** What the regular expression [/^0x[a-fA-F0-9]{n}$/] accepts. *)
Lemma matches_0x_hex_iff (n : nat) (s : string) :
  Js.matches_0x_hex n s = true
  <-> exists h,
      s = "0x" ++ h /\ String.length h = n
      /\ string_forall Js.is_hex h = true.
Proof.
  split.
  - destruct s as [|c0 [|c1 rest]]; try discriminate; intros H.
    + destruct c0 as [[] [] [] [] [] [] [] []]; discriminate H.
    + destruct c0 as [[] [] [] [] [] [] [] []]; try discriminate H.
      destruct c1 as [[] [] [] [] [] [] [] []]; try discriminate H.
      apply hex_run_forall in H as [Hl Hf]. exists rest. auto.
  - intros (h & -> & Hl & Hf). apply hex_run_of_forall; assumption.
Qed.

Lemma shape_is_truthy (n : nat) (s : string) :
  Js.matches_0x_hex n s = true -> Js.truthy s = true.
Proof. destruct s; [discriminate | reflexivity]. Qed.

(** X1.  The two status queries validate the operation reference alike: a
    reference that is not [0x] followed by 64 hex characters makes
    [getTransactionStatus] and [getUnshieldStatus] throw "Invalid transaction
    hash"; any well-formed one is answered [COMPLETED]; the world is left as
    it was either way. *)
Theorem status_queries_validate_reference txHash w :
  (tx_shape txHash = false ->
   ShieldModule.getTransactionStatus txHash w
   = (Throw (Js.Error "Invalid transaction hash"), w)
   /\ UnshieldModule.getUnshieldStatus txHash w
      = (Throw (Js.Error "Invalid transaction hash"), w))
  /\ (tx_shape txHash = true ->
      ShieldModule.getTransactionStatus txHash w = (Return COMPLETED, w)
      /\ UnshieldModule.getUnshieldStatus txHash w = (Return COMPLETED, w)).
Proof.
  unfold tx_shape, ShieldModule.getTransactionStatus,
    UnshieldModule.getUnshieldStatus.
  split; intros H.
  - rewrite H, orb_true_r. split; reflexivity.
  - rewrite H, (shape_is_truthy _ _ H). split; reflexivity.
Qed.

Lemma status_queries_validate_reference_witness :
  (ShieldModule.getTransactionStatus "0xabc" world0
   = (Throw (Js.Error "Invalid transaction hash"), world0)
   /\ UnshieldModule.getUnshieldStatus "0xabc" world0
      = (Throw (Js.Error "Invalid transaction hash"), world0))
  /\ (ShieldModule.getTransactionStatus tx_completing world0
      = (Return COMPLETED, world0)
      /\ UnshieldModule.getUnshieldStatus tx_completing world0
         = (Return COMPLETED, world0)).
Proof.
  split.
  - apply (proj1 (status_queries_validate_reference "0xabc" world0)).
    reflexivity.
  - apply (proj2 (status_queries_validate_reference tx_completing world0)).
    reflexivity.
Defined.

(** X2.  One notion of a well-formed address: [isValidIncognitoAddress]
    accepts exactly the strings made of [0x] and 40 hex characters, and it
    accepts an address exactly when [getIncognitoBalance],
    [getShieldedBalance] and [deriveIncognitoAddress] do not throw on it. *)
Theorem address_validators_agree a token chainId w :
  (IncognitoModule.isValidIncognitoAddress a = true
   <-> exists h, a = "0x" ++ h /\ String.length h = 40%nat
                 /\ string_forall Js.is_hex h = true)
  /\ (IncognitoModule.isValidIncognitoAddress a = true
      <-> IncognitoModule.getIncognitoBalance a token chainId w
          = (Return "0", w))
  /\ (IncognitoModule.isValidIncognitoAddress a = true
      <-> ShieldModule.getShieldedBalance a token chainId w = (Return "0", w))
  /\ (IncognitoModule.isValidIncognitoAddress a = true
      <-> exists derived,
          IncognitoModule.deriveIncognitoAddress a chainId w
          = (Return derived, w)).
Proof.
  unfold IncognitoModule.isValidIncognitoAddress.
  split; [apply matches_0x_hex_iff|].
  unfold IncognitoModule.getIncognitoBalance, ShieldModule.getShieldedBalance,
    IncognitoModule.deriveIncognitoAddress.
  destruct (Js.matches_0x_hex 40 a) eqn:E.
  - rewrite (shape_is_truthy _ _ E). simpl.
    repeat split; eauto.
  - rewrite orb_true_r.
    repeat split; try discriminate; intros H;
      try (destruct H as (d & H)); discriminate H.
Qed.

Lemma le_zero_false_iff x :
  Js.le_zero x = false <-> Js.gt_zero x = true \/ x = Js.NaN.
Proof.
  destruct x as [|[]|[] m e]; simpl; try destruct (Js.rounds_to_zero m e);
    simpl; split;
    first [ discriminate
          | intros _; now left
          | intros _; now right
          | intros _; reflexivity
          | intros [H | H]; discriminate H ].
Qed.

(** X3.  Which submissions are accepted: [shieldTokens] and [unshieldTokens]
    return exactly when the address is well formed and the amount is not
    empty and parses either to a number strictly greater than 0 or to
    [NaN]. *)
Theorem submission_accepted_iff rt addr token amount chainId w :
  ((exists r w',
       ShieldModule.shieldTokens rt addr token amount chainId w
       = (Return r, w'))
   <-> address_shape addr = true /\ amount <> ""
       /\ (strictly_positive amount = true
           \/ Js.parseFloat amount = Js.NaN))
  /\ ((exists r w',
          UnshieldModule.unshieldTokens rt addr token amount chainId w
          = (Return r, w'))
      <-> address_shape addr = true /\ amount <> ""
          /\ (strictly_positive amount = true
              \/ Js.parseFloat amount = Js.NaN)).
Proof.
  unfold address_shape, strictly_positive, ShieldModule.shieldTokens,
    UnshieldModule.unshieldTokens.
  destruct (Js.matches_0x_hex 40 addr) eqn:Ea.
  - rewrite (shape_is_truthy _ _ Ea). simpl.
    destruct amount as [|c amount'].
    + simpl. split; split;
        try (intros (r & w' & H); discriminate H);
        intros (_ & H & _); congruence.
    + cbn [Js.truthy negb orb].
      destruct (Js.le_zero (Js.parseFloat (String c amount'))) eqn:El.
      * assert (~ (Js.gt_zero (Js.parseFloat (String c amount')) = true
                   \/ Js.parseFloat (String c amount') = Js.NaN)) as Hn.
        { intros H. apply le_zero_false_iff in H. congruence. }
        split; split;
          try (intros (r & w' & H); discriminate H);
          intros (_ & _ & H); contradiction.
      * apply le_zero_false_iff in El.
        split; split; intros _; eauto;
          (split; [reflexivity | split; [discriminate | exact El]]).
  - rewrite orb_true_r.
    split; split;
      try (intros (r & w' & H); discriminate H);
      intros (H & _); discriminate H.
Qed.

Lemma padEnd_shape (s : string) :
  (String.length s <= 64)%nat ->
  string_forall Js.is_hex s = true ->
  tx_shape ("0x" ++ Js.padEnd 64 "0" s) = true.
Proof.
  intros Hl Hf. unfold tx_shape.
  change (Js.hex_run 64 (Js.padEnd 64 "0" s) = true).
  apply hex_run_of_forall; unfold Js.padEnd.
  - rewrite string_length_app, length_repeat_char. lia.
  - rewrite string_forall_app, Hf, string_forall_repeat; reflexivity.
Qed.

(** X4.  A submission that is accepted draws one random number, leaves the
    clock alone, is pending and carries the reference made of that draw;
    when the drawn number renders, after its two leading characters, as at
    most 64 hex characters, that reference is well formed, so the status
    query accepts it. *)
Theorem submitted_reference_shape rt addr token amount chainId w r w' :
  ShieldModule.shieldTokens rt addr token amount chainId w = (Return r, w')
  \/ UnshieldModule.unshieldTokens rt addr token amount chainId w
     = (Return r, w') ->
  state r = PENDING
  /\ w' = {| now := now w; draws := S (draws w) |}
  /\ txHash r = next_reference rt w
  /\ (string_forall Js.is_hex (Js.slice_from 2 (random_hex rt (draws w)))
      = true ->
      (String.length (Js.slice_from 2 (random_hex rt (draws w))) <= 64)%nat ->
      tx_shape (txHash r) = true
      /\ ShieldModule.getTransactionStatus (txHash r) w'
         = (Return COMPLETED, w')).
Proof.
  intros H.
  assert (r = {| txHash := next_reference rt w; state := PENDING |}
          /\ w' = {| now := now w; draws := S (draws w) |}) as [-> ->].
  { unfold ShieldModule.shieldTokens, UnshieldModule.unshieldTokens in H.
    destruct (negb (Js.truthy addr) || negb (Js.matches_0x_hex 40 addr));
      [destruct H as [H | H]; discriminate H|].
    destruct (negb (Js.truthy amount) || Js.le_zero (Js.parseFloat amount));
      [destruct H as [H | H]; discriminate H|].
    destruct H as [H | H]; inversion H; split; reflexivity. }
  repeat split.
  - cbn [txHash]. apply padEnd_shape; assumption.
  - cbn [txHash]. unfold ShieldModule.getTransactionStatus.
    assert (tx_shape (next_reference rt w) = true) as Hs
      by (apply padEnd_shape; assumption).
    unfold tx_shape in Hs. rewrite Hs, (shape_is_truthy _ _ Hs). reflexivity.
Qed.

Lemma submitted_reference_shape_witness :
  state {| txHash := hash0; state := PENDING |} = PENDING
  /\ {| now := 0; draws := 1 |}
     = {| now := now world0; draws := S (draws world0) |}
  /\ hash0 = next_reference runtime0 world0
  /\ tx_shape hash0 = true
  /\ ShieldModule.getTransactionStatus hash0 {| now := 0; draws := 1 |}
     = (Return COMPLETED, {| now := 0; draws := 1 |}).
Proof.
  destruct (submitted_reference_shape runtime0 wallet1 USDC "1000" 1 world0
              {| txHash := hash0; state := PENDING |}
              {| now := 0; draws := 1 |} (or_introl eq_refl))
    as (Hs & Hw & Hr & Hx).
  split; [exact Hs|]. split; [exact Hw|]. split; [exact Hr|].
  apply Hx.
  - reflexivity.
  - simpl. lia.
Defined.

(** ** Further properties of the status aggregator *)

(** X5.  The two balances are read in a fixed order, and the second read is
    skipped when the first throws: [checkPrivateFundsStatus] queries the
    shielded balance, then, only if that returned, the incognito balance,
    and makes no other SDK call. *)
Theorem status_reads_in_order sdk chainId main incog token w :
  snd (checkPrivateFundsStatus sdk chainId main incog token w)
  = match fst (getShieldedBalance sdk main token chainId w) with
    | Return _ => [CallGetShieldedBalance main token chainId;
                   CallGetIncognitoBalance incog token chainId]
    | Throw _ => [CallGetShieldedBalance main token chainId]
    end.
Proof.
  run_task.
  destruct (getShieldedBalance sdk main token chainId w) as [[sb|e] w1];
    [destruct (getIncognitoBalance sdk incog token chainId w1) as [[ib|e] w2]|];
    reflexivity.
Qed.

(** X6.  Every snapshot of [checkPrivateFundsStatus] is consistent: it is
    ready exactly when its pool status is [READY]; it carries an error
    exactly when its pool status is [ERROR], and then all balances are ["0"]
    (a shielded balance already read is dropped) and the state is [FAILED];
    otherwise the pool status is [READY] or [NOT_INITIALIZED] and the state
    is [IDLE]; it is stamped with the clock after the reads. *)
Theorem status_snapshot_consistent sdk chainId main incog token w :
  exists status w' calls,
    checkPrivateFundsStatus sdk chainId main incog token w
    = (Return status, w', calls)
    /\ (isReady status = true <-> privacyPoolStatus status = READY)
    /\ (error status <> None <-> privacyPoolStatus status = ERROR)
    /\ (privacyPoolStatus status = ERROR ->
        shieldedBalance status = "0" /\ incognitoBalance status = "0"
        /\ transactionState status = FAILED)
    /\ (privacyPoolStatus status <> ERROR ->
        transactionState status = IDLE
        /\ (privacyPoolStatus status = READY
            \/ privacyPoolStatus status = NOT_INITIALIZED))
    /\ mainWalletBalance status = "0"
    /\ lastUpdated status = now w'.
Proof.
  run_task.
  destruct (getShieldedBalance sdk main token chainId w) as [[sb|e] w1];
    [destruct (getIncognitoBalance sdk incog token chainId w1) as [[ib|e] w2]|];
    simpl; eexists _, _, _; (split; [reflexivity|]); simpl;
    try (destruct (Js.gt_zero (Js.parseFloat sb)),
           (Js.gt_zero (Js.parseFloat ib)); simpl);
    repeat split; intros; auto; try discriminate; try congruence.
Qed.

Lemma status_snapshot_consistent_witness :
  exists status w' calls,
    checkPrivateFundsStatus (repositorySdk runtime0) 1 wallet1 "invalid" USDC
                            world0
    = (Return status, w', calls)
    /\ privacyPoolStatus status = ERROR
    /\ shieldedBalance status = "0" /\ incognitoBalance status = "0"
    /\ transactionState status = FAILED.
Proof.
  destruct (status_snapshot_consistent (repositorySdk runtime0) 1 wallet1
              "invalid" USDC world0)
    as (status & w' & calls & E & _ & He & Hz & _).
  exists status, w', calls. split; [exact E|].
  assert (privacyPoolStatus status = ERROR) as Hp.
  { apply He. vm_compute in E. inversion E. discriminate. }
  split; [exact Hp | exact (Hz Hp)].
Defined.

(** X7.  On the modules of the repository the status is never ready: with
    two well-formed addresses the snapshot is [NOT_INITIALIZED] with
    balances ["0"]; a malformed main address gives the error snapshot
    "Invalid wallet address", whatever the incognito address is; a malformed
    incognito address after a well-formed main one gives "Invalid incognito
    address".  The world is left as it was. *)
Theorem repository_status rt chainId main incog token w :
  fst (checkPrivateFundsStatus (repositorySdk rt) chainId main incog token w)
  = (Return
       (if address_shape main then
          if address_shape incog then
            {| shieldedBalance := "0"; incognitoBalance := "0";
               mainWalletBalance := "0";
               privacyPoolStatus := NOT_INITIALIZED; isReady := false;
               transactionState := IDLE; error := None;
               lastUpdated := now w |}
          else error_snapshot "Invalid incognito address" (now w)
        else error_snapshot "Invalid wallet address" (now w)),
     w).
Proof.
  run_task. cbn [getShieldedBalance getIncognitoBalance repositorySdk].
  unfold ShieldModule.getShieldedBalance, IncognitoModule.getIncognitoBalance,
    address_shape.
  destruct (Js.matches_0x_hex 40 main) eqn:Em.
  - rewrite (shape_is_truthy _ _ Em). cbn [negb orb].
    destruct (Js.matches_0x_hex 40 incog) eqn:Ei.
    + rewrite (shape_is_truthy _ _ Ei). reflexivity.
    + rewrite orb_true_r. reflexivity.
  - rewrite orb_true_r. reflexivity.
Qed.

(** ** Further properties of the flow phases *)

(** X8.  The wallet [deriveIncognitoWallet] returns: its address is the one
    the SDK derived for the given main address and the chain of the service,
    it is active, it is stamped with the clock after the derivation, one SDK
    call was made; the label is kept when given and not empty, and an empty
    label is dropped like a missing one. *)
Theorem derived_wallet_fields sdk chainId main given w wallet w' calls :
  deriveIncognitoWallet sdk chainId main given w = (Return wallet, w', calls) ->
  deriveIncognitoAddress sdk main chainId w = (Return (address wallet), w')
  /\ mainWalletAddress wallet = main
  /\ wallet_chainId wallet = chainId
  /\ isActive wallet = true
  /\ createdAt wallet = now w'
  /\ calls = [CallDeriveIncognitoAddress main chainId]
  /\ (given = None \/ given = Some "" -> label wallet = None)
  /\ (forall l, given = Some l -> l <> "" -> label wallet = Some l).
Proof.
  run_task.
  destruct (deriveIncognitoAddress sdk main chainId w) as [[a|e] w1];
    simpl; intros E; inversion E; subst; simpl.
  repeat split.
  - intros [-> | ->]; reflexivity.
  - intros l -> Hl. destruct l; [congruence | reflexivity].
Qed.

Lemma derived_wallet_fields_witness :
  IncognitoModule.deriveIncognitoAddress wallet1 1 world0
  = (Return "0x1e0c4f831e0c4f831e0c4f831e0c4f831e0c4f83", world0)
  /\ wallet1 = wallet1
  /\ 1 = 1
  /\ true = true
  /\ 0 = now world0
  /\ [CallDeriveIncognitoAddress wallet1 1]
     = [CallDeriveIncognitoAddress wallet1 1]
  /\ (Some "" = None \/ Some "" = Some "" -> @None string = None)
  /\ (forall l, Some "" = Some l -> l <> "" -> None = Some l).
Proof.
  apply (derived_wallet_fields (repositorySdk runtime0) 1 wallet1 (Some "")
           world0
           (mkWallet "0x1e0c4f831e0c4f831e0c4f831e0c4f831e0c4f83" wallet1 1
                     true 0 None)
           world0 [CallDeriveIncognitoAddress wallet1 1]).
  vm_compute. reflexivity.
Defined.

(** X9.  An exit is the entry shield made from the incognito address:
    [exitPrivatePosition] and [preparePrivateFunds] called with
    [incognitoWallet.address] return the same transaction, leave the same
    world and make the same SDK call; when they throw, they throw the same
    cause under their two prefixes. *)
Theorem exit_is_shield_from_incognito sdk chainId wallet config w :
  match preparePrivateFunds sdk chainId (address wallet) config w,
        exitPrivatePosition sdk chainId wallet config w with
  | (Return t1, w1, c1), (Return t2, w2, c2) =>
      t1 = t2 /\ w1 = w2 /\ c1 = c2
  | (Throw e1, w1, c1), (Throw e2, w2, c2) =>
      w1 = w2 /\ c1 = c2
      /\ exists cause,
          e1 = Js.Error ("Failed to prepare private funds: " ++ cause)
          /\ e2 = Js.Error ("Failed to exit private position: " ++ cause)
  | _, _ => False
  end.
Proof.
  run_task.
  destruct (shieldTokens sdk (address wallet) (cfg_token config)
                         (cfg_amount config) chainId w) as [[r|e] w1];
    simpl; eauto 6.
Qed.

(** X10.  The transactions of the three fund-moving phases echo the
    configuration and not the SDK: token and amount are those of the
    configuration, the state is the one the SDK returned, the start time is
    the clock when the method was entered (before the SDK call), and no
    confirmation time or error is set. *)
Theorem transactions_echo_configuration sdk chainId main wallet config w :
  (forall tx w' calls,
      preparePrivateFunds sdk chainId main config w = (Return tx, w', calls) ->
      st_token tx = cfg_token config /\ st_amount tx = cfg_amount config
      /\ st_startedAt tx = now w /\ st_confirmedAt tx = None
      /\ st_error tx = None
      /\ fst (shieldTokens sdk main (cfg_token config) (cfg_amount config)
                           chainId w)
         = Return {| txHash := st_txHash tx; state := st_state tx |})
  /\ (forall tx w' calls,
         exitPrivatePosition sdk chainId wallet config w
         = (Return tx, w', calls) ->
         st_token tx = cfg_token config /\ st_amount tx = cfg_amount config
         /\ st_startedAt tx = now w /\ st_confirmedAt tx = None
         /\ st_error tx = None
         /\ fst (shieldTokens sdk (address wallet) (cfg_token config)
                              (cfg_amount config) chainId w)
            = Return {| txHash := st_txHash tx; state := st_state tx |})
  /\ (forall tx w' calls,
         unshieldForTrading sdk chainId wallet config w
         = (Return tx, w', calls) ->
         ut_token tx = cfg_token config /\ ut_amount tx = cfg_amount config
         /\ ut_startedAt tx = now w /\ ut_completedAt tx = None
         /\ ut_error tx = None
         /\ fst (unshieldTokens sdk (address wallet) (cfg_token config)
                                (cfg_amount config) chainId w)
            = Return {| txHash := ut_txHash tx; state := ut_state tx |}).
Proof.
  repeat split; revert H; run_task; simpl;
    match goal with
    | |- context [shieldTokens sdk ?a ?t ?m ?c w] =>
        destruct (shieldTokens sdk a t m c w) as [[[h st]|e] w1]
    | |- context [unshieldTokens sdk ?a ?t ?m ?c w] =>
        destruct (unshieldTokens sdk a t m c w) as [[[h st]|e] w1]
    end; simpl; intros E; inversion E; reflexivity.
Qed.

Lemma transactions_echo_configuration_witness :
  (USDC = cfg_token config0 /\ "10000" = cfg_amount config0
   /\ 0 = now world0 /\ @None Z = None /\ @None string = None
   /\ fst (ShieldModule.shieldTokens runtime0 wallet1 USDC "10000" 1 world0)
      = Return {| txHash := hash0; state := PENDING |})
  /\ (USDC = cfg_token config0 /\ "10000" = cfg_amount config0
      /\ 0 = now world0 /\ @None Z = None /\ @None string = None
      /\ fst (ShieldModule.shieldTokens runtime0 wallet2 USDC "10000" 1 world0)
         = Return {| txHash := hash0; state := PENDING |})
  /\ (USDC = cfg_token config0 /\ "10000" = cfg_amount config0
      /\ 0 = now world0 /\ @None Z = None /\ @None string = None
      /\ fst (UnshieldModule.unshieldTokens runtime0 wallet2 USDC "10000" 1
                                            world0)
         = Return {| txHash := hash0; state := PENDING |}).
Proof.
  destruct (transactions_echo_configuration (repositorySdk runtime0) 1 wallet1
              (mkWallet wallet2 wallet1 1 true 0 None) config0 world0)
    as (Hp & Hx & Hu).
  split; [|split].
  - exact (Hp (mkShieldTx hash0 USDC "10000" PENDING 0 None None)
              {| now := 0; draws := 1 |}
              [CallShieldTokens wallet1 USDC "10000" 1] eq_refl).
  - exact (Hx (mkShieldTx hash0 USDC "10000" PENDING 0 None None)
              {| now := 0; draws := 1 |}
              [CallShieldTokens wallet2 USDC "10000" 1] eq_refl).
  - exact (Hu (mkUnshieldTx hash0 USDC "10000" wallet2 PENDING 0 None None)
              {| now := 0; draws := 1 |}
              [CallUnshieldTokens wallet2 USDC "10000" 1] eq_refl).
Defined.

(** ** The flow on the modules of the repository *)

Lemma strictly_positive_accepted amount :
  strictly_positive amount = true ->
  Js.truthy amount = true /\ Js.le_zero (Js.parseFloat amount) = false.
Proof.
  unfold strictly_positive. intros H. split.
  - destruct amount; [discriminate H | reflexivity].
  - apply gt_zero_le_zero in H. apply H.
Qed.

Lemma shieldTokens_accepts rt a token amount chainId w :
  address_shape a = true -> strictly_positive amount = true ->
  ShieldModule.shieldTokens rt a token amount chainId w
  = (Return {| txHash := next_reference rt w; state := PENDING |},
     after_draw w).
Proof.
  unfold address_shape. intros Ha Hm.
  destruct (strictly_positive_accepted _ Hm) as [Ht Hl].
  unfold ShieldModule.shieldTokens.
  rewrite Ha, (shape_is_truthy _ _ Ha), Ht, Hl. reflexivity.
Qed.

Lemma unshieldTokens_accepts rt a token amount chainId w :
  address_shape a = true -> strictly_positive amount = true ->
  UnshieldModule.unshieldTokens rt a token amount chainId w
  = (Return {| txHash := next_reference rt w; state := PENDING |},
     after_draw w).
Proof.
  unfold address_shape. intros Ha Hm.
  destruct (strictly_positive_accepted _ Hm) as [Ht Hl].
  unfold UnshieldModule.unshieldTokens.
  rewrite Ha, (shape_is_truthy _ _ Ha), Ht, Hl. reflexivity.
Qed.

Lemma five_blocks_shape block :
  String.length block = 8%nat ->
  string_forall is_lower_hex block = true ->
  address_shape ("0x" ++ five_blocks block) = true.
Proof.
  intros Hl Hf. unfold address_shape.
  change (Js.hex_run 40 (five_blocks block) = true).
  apply hex_run_of_forall; unfold five_blocks.
  - rewrite !string_length_app, Hl. reflexivity.
  - rewrite !string_forall_app.
    rewrite (string_forall_impl _ _ _ lower_hex_is_hex Hf). reflexivity.
Qed.

(** The status query of the repository answers a well-formed reference at
    once, so the wait returns after one query, without sleeping. *)
Lemma wait_on_repository rt rt' txHash maxWaitTime fuel w :
  tx_shape txHash = true ->
  0 < or_else maxWaitTime DEFAULT_MAX_INDEXING_TIME ->
  waitForTransactionConfirmation rt (repositorySdk rt') (S fuel) txHash
                                 maxWaitTime w
  = Some (Return COMPLETED, w, [CallGetTransactionStatus txHash]).
Proof.
  unfold tx_shape. intros Hs Hb. unfold waitForTransactionConfirmation.
  rewrite wait_loop_step.
  assert ((now w - now w <? or_else maxWaitTime DEFAULT_MAX_INDEXING_TIME)
          = true) as -> by (apply Z.ltb_lt; lia).
  cbn [getTransactionStatus repositorySdk].
  unfold ShieldModule.getTransactionStatus.
  rewrite Hs, (shape_is_truthy _ _ Hs). reflexivity.
Qed.

(** X11.  The whole flow succeeds on the modules of the repository.  For a
    well-formed main address, an amount that parses to a number > 0 and
    random draws that render as hex: the wallet is derived without touching
    the world and its address is well formed; [preparePrivateFunds] returns
    a pending transaction whose reference the wait confirms after a single
    status query; [unshieldForTrading] to the wallet and the wait on it do
    the same; [exitPrivatePosition] from the wallet is accepted; the three
    submissions use three random draws and the clock never moves. *)
Theorem repository_flow_succeeds rt chainId main config given w :
  renders_hex rt ->
  address_shape main = true ->
  strictly_positive (cfg_amount config) = true ->
  exists wallet tx utx etx,
    deriveIncognitoWallet (repositorySdk rt) chainId main given w
    = (Return wallet, w, [CallDeriveIncognitoAddress main chainId])
    /\ address_shape (address wallet) = true
    /\ preparePrivateFunds (repositorySdk rt) chainId main config w
       = (Return tx, after_draw w,
          [CallShieldTokens main (cfg_token config) (cfg_amount config)
                            chainId])
    /\ st_state tx = PENDING
    /\ waitForTransactionConfirmation rt (repositorySdk rt) 1 (st_txHash tx)
                                      None (after_draw w)
       = Some (Return COMPLETED, after_draw w,
               [CallGetTransactionStatus (st_txHash tx)])
    /\ unshieldForTrading (repositorySdk rt) chainId wallet config
                          (after_draw w)
       = (Return utx, after_draw (after_draw w),
          [CallUnshieldTokens (address wallet) (cfg_token config)
                              (cfg_amount config) chainId])
    /\ destinationAddress utx = address wallet
    /\ waitForTransactionConfirmation rt (repositorySdk rt) 1 (ut_txHash utx)
                                      None (after_draw (after_draw w))
       = Some (Return COMPLETED, after_draw (after_draw w),
               [CallGetTransactionStatus (ut_txHash utx)])
    /\ exitPrivatePosition (repositorySdk rt) chainId wallet config
                           (after_draw (after_draw w))
       = (Return etx, after_draw (after_draw (after_draw w)),
          [CallShieldTokens (address wallet) (cfg_token config)
                            (cfg_amount config) chainId]).
Proof.
  intros Hr Ha Hm.
  destruct (deriveIncognitoAddress_blocks main chainId Ha)
    as (block & Hd & Hl & Hf).
  pose proof (five_blocks_shape block Hl Hf) as Hw.
  assert (forall w0, tx_shape (next_reference rt w0) = true) as Hn.
  { intros w0. destruct (Hr (draws w0)) as [Hx Hy].
    apply padEnd_shape; assumption. }
  exists {| address := "0x" ++ five_blocks block; mainWalletAddress := main;
            wallet_chainId := chainId; isActive := true; createdAt := now w;
            label := spread_label given |},
    (mkShieldTx (next_reference rt w) (cfg_token config) (cfg_amount config)
                PENDING (now w) None None),
    (mkUnshieldTx (next_reference rt (after_draw w)) (cfg_token config)
                  (cfg_amount config) ("0x" ++ five_blocks block) PENDING
                  (now w) None None),
    (mkShieldTx (next_reference rt (after_draw (after_draw w)))
                (cfg_token config) (cfg_amount config) PENDING (now w)
                None None).
  cbn [address st_txHash ut_txHash st_state destinationAddress].
  repeat split; trivial.
  - run_task. cbn [deriveIncognitoAddress repositorySdk]. rewrite Hd.
    reflexivity.
  - run_task. cbn [shieldTokens repositorySdk].
    rewrite (shieldTokens_accepts _ _ _ _ _ _ Ha Hm). reflexivity.
  - apply wait_on_repository; [apply Hn | reflexivity].
  - run_task. cbn [unshieldTokens repositorySdk address].
    rewrite (unshieldTokens_accepts _ _ _ _ _ _ Hw Hm). reflexivity.
  - apply wait_on_repository; [apply Hn | reflexivity].
  - run_task. cbn [shieldTokens repositorySdk address].
    rewrite (shieldTokens_accepts _ _ _ _ _ _ Hw Hm). reflexivity.
Qed.

Lemma runtime0_renders_hex : renders_hex runtime0.
Proof. intros n. split; [reflexivity | simpl; lia]. Qed.

Lemma repository_flow_succeeds_witness :
  exists wallet tx utx etx,
    deriveIncognitoWallet (repositorySdk runtime0) 1 wallet1 None world0
    = (Return wallet, world0, [CallDeriveIncognitoAddress wallet1 1])
    /\ address_shape (address wallet) = true
    /\ preparePrivateFunds (repositorySdk runtime0) 1 wallet1 config0 world0
       = (Return tx, after_draw world0,
          [CallShieldTokens wallet1 USDC "10000" 1])
    /\ st_state tx = PENDING
    /\ waitForTransactionConfirmation runtime0 (repositorySdk runtime0) 1
                                      (st_txHash tx) None (after_draw world0)
       = Some (Return COMPLETED, after_draw world0,
               [CallGetTransactionStatus (st_txHash tx)])
    /\ unshieldForTrading (repositorySdk runtime0) 1 wallet config0
                          (after_draw world0)
       = (Return utx, after_draw (after_draw world0),
          [CallUnshieldTokens (address wallet) USDC "10000" 1])
    /\ destinationAddress utx = address wallet
    /\ waitForTransactionConfirmation runtime0 (repositorySdk runtime0) 1
                                      (ut_txHash utx) None
                                      (after_draw (after_draw world0))
       = Some (Return COMPLETED, after_draw (after_draw world0),
               [CallGetTransactionStatus (ut_txHash utx)])
    /\ exitPrivatePosition (repositorySdk runtime0) 1 wallet config0
                           (after_draw (after_draw world0))
       = (Return etx, after_draw (after_draw (after_draw world0)),
          [CallShieldTokens (address wallet) USDC "10000" 1]).
Proof.
  apply (repository_flow_succeeds runtime0 1 wallet1 config0 None world0).
  - exact runtime0_renders_hex.
  - reflexivity.
  - reflexivity.
Defined.

(** ** Further properties of the confirmation tracker *)

(** X12.  An error of the status query is passed on as it is, with no phase
    prefix: when, after [k] non-terminal polls within the budget, the query
    throws [e], [waitForTransactionConfirmation] throws that same [e] at
    once. *)
Theorem status_query_error_propagates
    rt sdk txHash maxWaitTime w k wk fuel e w1 :
  after_polls rt sdk k txHash (or_else maxWaitTime DEFAULT_MAX_INDEXING_TIME)
              (now w) w = Some wk ->
  (k < fuel)%nat ->
  now wk - now w < or_else maxWaitTime DEFAULT_MAX_INDEXING_TIME ->
  getTransactionStatus sdk txHash wk = (Throw e, w1) ->
  waitForTransactionConfirmation rt sdk fuel txHash maxWaitTime w
  = Some (Throw e, w1, repeat (CallGetTransactionStatus txHash) (S k)).
Proof.
  intros Hk Hf Ht Hp. unfold waitForTransactionConfirmation.
  replace fuel with (k + S (fuel - S k))%nat by lia.
  rewrite (wait_loop_after_polls _ _ _ _ _ _ _ _ _ Hk), wait_loop_step.
  apply Z.ltb_lt in Ht. rewrite Ht, Hp.
  change [CallGetTransactionStatus txHash]
    with (repeat (CallGetTransactionStatus txHash) 1).
  rewrite <- repeat_app. repeat f_equal. lia.
Qed.

Lemma status_query_error_propagates_witness :
  waitForTransactionConfirmation runtime0 (repositorySdk runtime0) 1 "0xabc"
                                 None world0
  = Some (Throw (Js.Error "Invalid transaction hash"), world0,
          repeat (CallGetTransactionStatus "0xabc") 1).
Proof.
  apply (status_query_error_propagates runtime0 (repositorySdk runtime0)
           "0xabc" None world0 0 world0 1
           (Js.Error "Invalid transaction hash") world0).
  - reflexivity.
  - lia.
  - reflexivity.
  - reflexivity.
Defined.

(** X13.  A negative wait budget is taken as given: the call throws
    "Transaction confirmation timeout" at once, without a status query and
    without sleeping. *)
Theorem negative_budget_times_out_at_once rt sdk txHash budget w fuel :
  budget < 0 ->
  waitForTransactionConfirmation rt sdk (S fuel) txHash (Some budget) w
  = Some (Throw (Js.Error "Transaction confirmation timeout"), w, []).
Proof.
  intros Hb. unfold waitForTransactionConfirmation, or_else.
  assert ((budget =? 0) = false) as -> by (apply Z.eqb_neq; lia).
  rewrite wait_loop_step.
  assert ((now w - now w <? budget) = false) as -> by (apply Z.ltb_ge; lia).
  reflexivity.
Qed.

Lemma negative_budget_times_out_at_once_witness :
  waitForTransactionConfirmation runtime0 scriptedSdk 1 tx_completing
                                 (Some (-70000)) world0
  = Some (Throw (Js.Error "Transaction confirmation timeout"), world0, []).
Proof.
  apply (negative_budget_times_out_at_once runtime0 scriptedSdk tx_completing
           (-70000) world0 0).
  lia.
Defined.

(** The calls of the loop are status queries of the given reference. *)
Lemma wait_loop_trace rt sdk txHash maxTime startTime fuel :
  forall w r w' calls,
    wait_loop rt sdk fuel txHash maxTime startTime w = Some (r, w', calls) ->
    calls = repeat (CallGetTransactionStatus txHash) (List.length calls).
Proof.
  induction fuel as [|fuel IH]; intros w r w' calls; [discriminate|].
  rewrite wait_loop_step.
  destruct (now w - startTime <? maxTime);
    [|intros E; inversion E; reflexivity].
  destruct (getTransactionStatus sdk txHash w) as [[st|e] w1];
    [|intros E; inversion E; reflexivity].
  destruct (state_eqb st COMPLETED); [intros E; inversion E; reflexivity|].
  destruct (state_eqb st FAILED); [intros E; inversion E; reflexivity|].
  destruct (wait_loop rt sdk fuel txHash maxTime startTime
                      (setTimeout rt POLLING_INTERVAL w1))
    as [[[r2 w2] t2]|] eqn:Er; intros E; inversion E; subst.
  simpl. f_equal. eapply IH; eassumption.
Qed.

(** With a clock that is not turned back, the polls still to come fit in
    what is left of the budget, 2000 ms apart. *)
Lemma wait_loop_poll_bound rt sdk txHash maxTime startTime :
  (forall t, 0 <= timer_lag rt t) ->
  (forall w0, now w0 <= now (snd (getTransactionStatus sdk txHash w0))) ->
  forall fuel w r w' calls,
    wait_loop rt sdk fuel txHash maxTime startTime w = Some (r, w', calls) ->
    POLLING_INTERVAL * Z.of_nat (List.length calls)
    < Z.max (maxTime - (now w - startTime)) 0 + POLLING_INTERVAL.
Proof.
  intros Hlag Hmono. unfold POLLING_INTERVAL.
  induction fuel as [|fuel IH]; intros w r w' calls; [discriminate|].
  rewrite wait_loop_step.
  destruct (now w - startTime <? maxTime) eqn:Et;
    [|intros E; inversion E; simpl; lia].
  apply Z.ltb_lt in Et. pose proof (Hmono w) as Hw.
  destruct (getTransactionStatus sdk txHash w) as [[st|e] w1];
    [|intros E; inversion E; simpl; lia].
  destruct (state_eqb st COMPLETED); [intros E; inversion E; simpl; lia|].
  destruct (state_eqb st FAILED); [intros E; inversion E; simpl; lia|].
  destruct (wait_loop rt sdk fuel txHash maxTime startTime
                      (setTimeout rt POLLING_INTERVAL w1))
    as [[[r2 w2] t2]|] eqn:Er; intros E; inversion E; subst.
  apply IH in Er. unfold setTimeout, POLLING_INTERVAL in Er.
  cbn [now snd] in *. pose proof (Hlag (now w1)).
  cbn [List.length]. lia.
Qed.

Lemma scripted_clock_forward txHash :
  forall w0, now w0 <= now (snd (getTransactionStatus scriptedSdk txHash w0)).
Proof. intros w0. simpl. lia. Qed.

(** X14.  The polls are bounded by the budget.  Whatever
    [waitForTransactionConfirmation] ends with, the SDK calls it made are
    status queries of the given reference and nothing else; and when timers
    do not fire early and the status query does not turn the clock back,
    their number [n] satisfies [2000 * (n - 1) < budget] for a positive
    budget (35 queries at most with the default), and is 0 for a negative
    one. *)
Theorem polls_bounded_by_budget rt sdk txHash maxWaitTime w fuel r w' calls :
  waitForTransactionConfirmation rt sdk fuel txHash maxWaitTime w
  = Some (r, w', calls) ->
  calls = repeat (CallGetTransactionStatus txHash) (List.length calls)
  /\ ((forall t, 0 <= timer_lag rt t) ->
      (forall w0,
          now w0 <= now (snd (getTransactionStatus sdk txHash w0))) ->
      POLLING_INTERVAL * Z.of_nat (List.length calls)
      < Z.max (or_else maxWaitTime DEFAULT_MAX_INDEXING_TIME) 0
        + POLLING_INTERVAL).
Proof.
  unfold waitForTransactionConfirmation. intros E. split.
  - eapply wait_loop_trace; eassumption.
  - intros Hlag Hmono.
    pose proof (wait_loop_poll_bound _ _ _ _ _ Hlag Hmono _ _ _ _ _ E) as Hb.
    replace (or_else maxWaitTime DEFAULT_MAX_INDEXING_TIME - (now w - now w))
      with (or_else maxWaitTime DEFAULT_MAX_INDEXING_TIME) in Hb by lia.
    exact Hb.
Qed.

Lemma polls_bounded_by_budget_witness :
  repeat (CallGetTransactionStatus tx_stuck) 35
  = repeat (CallGetTransactionStatus tx_stuck)
           (List.length (repeat (CallGetTransactionStatus tx_stuck) 35))
  /\ POLLING_INTERVAL
     * Z.of_nat (List.length (repeat (CallGetTransactionStatus tx_stuck) 35))
     < Z.max (or_else None DEFAULT_MAX_INDEXING_TIME) 0 + POLLING_INTERVAL.
Proof.
  destruct (polls_bounded_by_budget runtime0 scriptedSdk tx_stuck None world0
              40 (Throw (Js.Error "Transaction confirmation timeout"))
              {| now := 70000; draws := 0 |}
              (repeat (CallGetTransactionStatus tx_stuck) 35))
    as (Ht & Hb).
  - vm_compute. reflexivity.
  - split; [exact Ht|]. apply Hb.
    + intros t. simpl. lia.
    + apply scripted_clock_forward.
Defined.

(** From a loop head reached in time, the loop ends in time. *)
Lemma wait_loop_overshoot rt sdk txHash maxTime startTime lag latency :
  0 <= lag -> 0 <= latency ->
  (forall t, timer_lag rt t <= lag) ->
  (forall w0, now (snd (getTransactionStatus sdk txHash w0))
              <= now w0 + latency) ->
  forall fuel w r w' calls,
    now w - startTime < maxTime + POLLING_INTERVAL + lag + latency ->
    wait_loop rt sdk fuel txHash maxTime startTime w = Some (r, w', calls) ->
    now w' - startTime < maxTime + POLLING_INTERVAL + lag + latency.
Proof.
  intros Hl Hd Hlag Hlat. unfold POLLING_INTERVAL.
  induction fuel as [|fuel IH]; intros w r w' calls Hw; [discriminate|].
  rewrite wait_loop_step.
  destruct (now w - startTime <? maxTime) eqn:Et;
    [|intros E; inversion E; subst; exact Hw].
  apply Z.ltb_lt in Et. pose proof (Hlat w) as Hp.
  destruct (getTransactionStatus sdk txHash w) as [[st|e] w1];
    cbn [snd] in Hp; [|intros E; inversion E; subst; lia].
  destruct (state_eqb st COMPLETED); [intros E; inversion E; subst; lia|].
  destruct (state_eqb st FAILED); [intros E; inversion E; subst; lia|].
  destruct (wait_loop rt sdk fuel txHash maxTime startTime
                      (setTimeout rt POLLING_INTERVAL w1))
    as [[[r2 w2] t2]|] eqn:Er; intros E; inversion E; subst.
  eapply IH; [|exact Er].
  unfold setTimeout, POLLING_INTERVAL. cbn [now].
  pose proof (Hlag (now w1)). lia.
Qed.

(** The fuel that covers a budget: the budget in polling intervals,
    rounded up. *)
Lemma budget_in_intervals maxTime :
  maxTime
  <= POLLING_INTERVAL
     * Z.of_nat (Z.to_nat ((maxTime + POLLING_INTERVAL - 1) / POLLING_INTERVAL)).
Proof.
  unfold POLLING_INTERVAL.
  destruct (Z_lt_le_dec maxTime 0) as [Hn | Hp]; [lia|].
  rewrite Z2Nat.id by (apply Z.div_pos; lia).
  assert (0 <= (maxTime + 2000 - 1) mod 2000 < 2000) as H2
    by (apply Z.mod_pos_bound; lia).
  pose proof (Z.div_mod (maxTime + 2000 - 1) 2000) as H3.
  lia.
Qed.

(** X15.  The wait ends, and does not outlast its budget by more than one
    polling interval plus the latencies: when timers fire between 0 and
    [lag] ms late and a status query takes between 0 and [latency] ms, a
    call with a positive budget returns or throws within [budget / 2000],
    rounded up, plus one iterations of the loop, less than
    [budget + 2000 + lag + latency] ms after it started. *)
Theorem wait_overshoot_bounded rt sdk txHash maxWaitTime lag latency w :
  (forall t, 0 <= timer_lag rt t <= lag) ->
  (forall w0,
      now w0 <= now (snd (getTransactionStatus sdk txHash w0))
      <= now w0 + latency) ->
  0 < or_else maxWaitTime DEFAULT_MAX_INDEXING_TIME ->
  exists r w' calls,
    waitForTransactionConfirmation rt sdk
      (S (Z.to_nat ((or_else maxWaitTime DEFAULT_MAX_INDEXING_TIME
                     + POLLING_INTERVAL - 1) / POLLING_INTERVAL)))
      txHash maxWaitTime w
    = Some (r, w', calls)
    /\ now w' - now w
       < or_else maxWaitTime DEFAULT_MAX_INDEXING_TIME + POLLING_INTERVAL
         + lag + latency.
Proof.
  intros Hlag Hlat Hb. unfold waitForTransactionConfirmation.
  set (maxTime := or_else maxWaitTime DEFAULT_MAX_INDEXING_TIME) in *.
  pose proof (Hlag 0) as Hl0. pose proof (Hlat w) as Hd0.
  destruct (wait_loop_terminates rt sdk txHash maxTime (now w)
              (fun t => proj1 (Hlag t)) (fun w0 => proj1 (Hlat w0))
              (Z.to_nat ((maxTime + POLLING_INTERVAL - 1) / POLLING_INTERVAL))
              w)
    as ([[r w'] calls] & E).
  { pose proof (budget_in_intervals maxTime). lia. }
  exists r, w', calls. split; [exact E|].
  apply (wait_loop_overshoot rt sdk txHash maxTime (now w) lag latency)
    with (fuel := S (Z.to_nat ((maxTime + POLLING_INTERVAL - 1)
                               / POLLING_INTERVAL)))
         (w := w) (r := r) (calls := calls); try lia.
  - intros t. apply Hlag.
  - intros w0. apply Hlat.
  - unfold POLLING_INTERVAL. lia.
  - exact E.
Qed.

Lemma wait_overshoot_bounded_witness :
  exists r w' calls,
    waitForTransactionConfirmation runtime0 scriptedSdk
      (S (Z.to_nat ((or_else (Some 1000) DEFAULT_MAX_INDEXING_TIME
                     + POLLING_INTERVAL - 1) / POLLING_INTERVAL)))
      tx_stuck (Some 1000) world0
    = Some (r, w', calls)
    /\ now w' - now world0
       < or_else (Some 1000) DEFAULT_MAX_INDEXING_TIME + POLLING_INTERVAL
         + 0 + 0.
Proof.
  apply (wait_overshoot_bounded runtime0 scriptedSdk tx_stuck (Some 1000) 0 0
           world0).
  - intros t. simpl. lia.
  - intros w0. simpl. lia.
  - reflexivity.
Defined.

(** X16.  The wait ends: when timers do not fire early and the status query
    does not turn the clock back, [budget / 2000], rounded up, plus one
    iterations of the loop are enough for [waitForTransactionConfirmation]
    to return or throw (36 with the default budget). *)
Theorem wait_ends_within_budget rt sdk txHash maxWaitTime w :
  (forall t, 0 <= timer_lag rt t) ->
  (forall w0, now w0 <= now (snd (getTransactionStatus sdk txHash w0))) ->
  exists result,
    waitForTransactionConfirmation rt sdk
      (S (Z.to_nat ((or_else maxWaitTime DEFAULT_MAX_INDEXING_TIME
                     + POLLING_INTERVAL - 1) / POLLING_INTERVAL)))
      txHash maxWaitTime w
    = Some result.
Proof.
  intros Hlag Hmono. unfold waitForTransactionConfirmation.
  set (maxTime := or_else maxWaitTime DEFAULT_MAX_INDEXING_TIME).
  apply wait_loop_terminates; trivial.
  unfold POLLING_INTERVAL.
  destruct (Z_lt_le_dec maxTime 0) as [Hn | Hp].
  - lia.
  - rewrite Z2Nat.id by (apply Z.div_pos; lia).
    pose proof (Z.mul_div_le (maxTime + 2000 - 1) 2000 ltac:(lia)) as H1.
    pose proof (Z.mod_pos_bound (maxTime + 2000 - 1) 2000 ltac:(lia)) as H2.
    pose proof (Z.div_mod (maxTime + 2000 - 1) 2000 ltac:(lia)) as H3.
    lia.
Qed.

Lemma wait_ends_within_budget_witness :
  exists result,
    waitForTransactionConfirmation runtime0 scriptedSdk
      (S (Z.to_nat ((or_else None DEFAULT_MAX_INDEXING_TIME
                     + POLLING_INTERVAL - 1) / POLLING_INTERVAL)))
      tx_stuck None world0
    = Some result.
Proof.
  apply (wait_ends_within_budget runtime0 scriptedSdk tx_stuck None world0).
  - intros t. simpl. lia.
  - apply scripted_clock_forward.
Defined.

(** ** The hash behind the mock derivation *)

Lemma toInt32_shift z k : Js.toInt32 (z + k * 2 ^ 32) = Js.toInt32 z.
Proof. unfold Js.toInt32. now rewrite Z_mod_plus_full. Qed.

Lemma toInt32_unwrap z : exists k, Js.toInt32 z = z + k * 2 ^ 32.
Proof.
  unfold Js.toInt32.
  pose proof (Z.div_mod z (2 ^ 32)) as Hd.
  destruct (z mod 2 ^ 32 <? 2 ^ 31).
  - exists (- (z / 2 ^ 32)). lia.
  - exists (- (z / 2 ^ 32) - 1). lia.
Qed.

(** One turn of the loop multiplies by 31 and adds the character, wrapping
    to 32 bits: [(h << 5) - h + c], then [& itself]. *)
Lemma simpleHash_step h c :
  Js.band (Js.shl h 5 - h + c) (Js.shl h 5 - h + c) = Js.toInt32 (31 * h + c).
Proof.
  unfold Js.band, Js.shl. rewrite Z.land_diag, Z.shiftl_mul_pow2 by lia.
  destruct (toInt32_unwrap h) as (k1 & ->).
  destruct (toInt32_unwrap ((h + k1 * 2 ^ 32) * 2 ^ 5)) as (k2 & ->).
  destruct (toInt32_unwrap ((h + k1 * 2 ^ 32) * 2 ^ 5 + k2 * 2 ^ 32 - h + c))
    as (k3 & ->).
  replace ((h + k1 * 2 ^ 32) * 2 ^ 5 + k2 * 2 ^ 32 - h + c + k3 * 2 ^ 32)
    with (31 * h + c + (32 * k1 + k2 + k3) * 2 ^ 32) by lia.
  apply toInt32_shift.
Qed.

Lemma poly31_shift input :
  forall x k, exists k', poly31 input (x + k * 2 ^ 32)
                         = poly31 input x + k' * 2 ^ 32.
Proof.
  induction input as [|c rest IH]; intros x k; cbn [poly31].
  - exists k. reflexivity.
  - replace (31 * (x + k * 2 ^ 32) + Js.charCode c)
      with (31 * x + Js.charCode c + (31 * k) * 2 ^ 32) by lia.
    apply IH.
Qed.

Lemma simpleHash_loop_poly c rest :
  forall h,
    IncognitoModule.simpleHash_loop (String c rest) h
    = Js.toInt32 (poly31 (String c rest) h).
Proof.
  revert c. induction rest as [|c' rest IH]; intros c h.
  - cbn [IncognitoModule.simpleHash_loop poly31]. apply simpleHash_step.
  - change (IncognitoModule.simpleHash_loop (String c (String c' rest)) h)
      with (IncognitoModule.simpleHash_loop (String c' rest)
              (Js.band (Js.shl h 5 - h + Js.charCode c)
                       (Js.shl h 5 - h + Js.charCode c))).
    rewrite simpleHash_step, IH.
    change (poly31 (String c (String c' rest)) h)
      with (poly31 (String c' rest) (31 * h + Js.charCode c)).
    destruct (toInt32_unwrap (31 * h + Js.charCode c)) as (k & ->).
    destruct (poly31_shift (String c' rest) (31 * h + Js.charCode c) k)
      as (k' & ->).
    apply toInt32_shift.
Qed.

(** X17.  The shift-and-subtract loop of [simpleHash] is the polynomial hash
    with multiplier 31 wrapped to a signed 32-bit integer: started from 0 as
    the code does, it yields [ToInt32] of
    [c1 * 31^(n-1) + ... + cn] for the characters [c1 ... cn]. *)
Theorem simpleHash_is_polynomial input :
  IncognitoModule.simpleHash_loop input 0 = Js.toInt32 (poly31 input 0).
Proof.
  destruct input as [|c rest]; [reflexivity | apply simpleHash_loop_poly].
Qed.

Lemma simpleHash_loop_app a b :
  forall h,
    IncognitoModule.simpleHash_loop (a ++ b) h
    = IncognitoModule.simpleHash_loop b (IncognitoModule.simpleHash_loop a h).
Proof. induction a as [|c a IH]; intros h; simpl; [reflexivity | apply IH]. Qed.

Lemma poly31_linear u :
  forall h, poly31 u h = 31 ^ Z.of_nat (String.length u) * h + poly31 u 0.
Proof.
  induction u as [|c u IH]; intros h.
  - cbn [poly31 String.length Z.of_nat]. lia.
  - cbn [poly31 String.length]. rewrite (IH (31 * h + Js.charCode c)).
    rewrite (IH (31 * 0 + Js.charCode c)).
    rewrite Nat2Z.inj_succ, Z.pow_succ_r by lia. ring.
Qed.

Lemma simpleHash_loop_block u v :
  String.length u = String.length v ->
  poly31 u 0 = poly31 v 0 ->
  forall h,
    IncognitoModule.simpleHash_loop u h = IncognitoModule.simpleHash_loop v h.
Proof.
  intros Hl Hp h.
  destruct u as [|cu u], v as [|cv v]; try discriminate Hl; [reflexivity|].
  rewrite !simpleHash_loop_poly.
  rewrite (poly31_linear (String cu u)), (poly31_linear (String cv v)).
  now rewrite Hl, Hp.
Qed.

(** X18.  Collisions of the derivation come in families: two well-formed
    addresses that differ only in a block of equal length and equal
    31-polynomial value (such as [1B] and [0a]) are derived to the same
    incognito address, at any position of the block and on every network. *)
Theorem derivation_collides_on_equal_blocks u v before after chainId w :
  String.length u = String.length v ->
  poly31 u 0 = poly31 v 0 ->
  address_shape (before ++ u ++ after) = true ->
  address_shape (before ++ v ++ after) = true ->
  IncognitoModule.deriveIncognitoAddress (before ++ u ++ after) chainId w
  = IncognitoModule.deriveIncognitoAddress (before ++ v ++ after) chainId w.
Proof.
  unfold address_shape. intros Hl Hp Hu Hv.
  unfold IncognitoModule.deriveIncognitoAddress.
  rewrite Hu, Hv, (shape_is_truthy _ _ Hu), (shape_is_truthy _ _ Hv).
  cbn [negb orb]. unfold IncognitoModule.simpleHash.
  rewrite !string_app_assoc, !simpleHash_loop_app.
  now rewrite (simpleHash_loop_block u v Hl Hp).
Qed.

Lemma derivation_collides_on_equal_blocks_witness :
  IncognitoModule.deriveIncognitoAddress
    ("0x" ++ "1B" ++ "00000000000000000000000000000000000000") 56 world0
  = IncognitoModule.deriveIncognitoAddress
      ("0x" ++ "0a" ++ "00000000000000000000000000000000000000") 56 world0.
Proof.
  apply (derivation_collides_on_equal_blocks "1B" "0a" "0x"
           "00000000000000000000000000000000000000" 56 world0);
    reflexivity.
Defined.

(** ** Balances and amounts that are decimal renderings of integers *)

Lemma is_digit_cases c :
  Js.is_digit c = true ->
  In c ["0"; "1"; "2"; "3"; "4"; "5"; "6"; "7"; "8"; "9"]%char.
Proof.
  destruct c as [[] [] [] [] [] [] [] []]; intros H;
    try discriminate H; simpl; tauto.
Qed.

Lemma digits_value_app a b :
  forall v, Js.digits_value (a ++ b) v = Js.digits_value b (Js.digits_value a v).
Proof.
  induction a as [|c a IH]; intros v; cbn [Js.digits_value append];
    [reflexivity | apply IH].
Qed.

Lemma digit_char_value d :
  0 <= d < 10 ->
  Js.is_digit (Js.digit_char d) = true
  /\ Js.charCode (Js.digit_char d) - 48 = d.
Proof.
  intros H.
  assert (d = 0 \/ d = 1 \/ d = 2 \/ d = 3 \/ d = 4 \/ d = 5 \/ d = 6 \/ d = 7
          \/ d = 8 \/ d = 9) as Hd by lia.
  repeat (destruct Hd as [-> | Hd]; [split; reflexivity|]).
  subst d. split; reflexivity.
Qed.

Lemma digits_onto_S fuel radix n acc :
  Js.digits_onto (S fuel) radix n acc
  = if n <? radix then String (Js.digit_char n) acc
    else Js.digits_onto fuel radix (n / radix)
                        (String (Js.digit_char (n mod radix)) acc).
Proof. reflexivity. Qed.

(** The decimal digits of [n] are digits, there is at least one, and they
    read back as [n]. *)
Lemma digits_onto_decimal fuel :
  forall n acc,
    0 <= n < 10 ^ Z.of_nat (S fuel) ->
    exists c ds,
      Js.digits_onto (S fuel) 10 n acc = String c ds ++ acc
      /\ string_forall Js.is_digit (String c ds) = true
      /\ Js.digits_value (String c ds) 0 = n.
Proof.
  induction fuel as [|fuel IH]; intros n acc Hn;
    rewrite digits_onto_S; destruct (n <? 10) eqn:E.
  - apply Z.ltb_lt in E. destruct (digit_char_value n) as [Hd Hv]; [lia|].
    exists (Js.digit_char n), "". cbn [string_forall Js.digits_value].
    rewrite Hd. repeat split. lia.
  - apply Z.ltb_ge in E. simpl in Hn. lia.
  - apply Z.ltb_lt in E. destruct (digit_char_value n) as [Hd Hv]; [lia|].
    exists (Js.digit_char n), "". cbn [string_forall Js.digits_value].
    rewrite Hd. repeat split. lia.
  - apply Z.ltb_ge in E.
    assert (10 ^ Z.of_nat (S (S fuel)) = 10 * 10 ^ Z.of_nat (S fuel)) as Hp.
    { rewrite (Nat2Z.inj_succ (S fuel)), Z.pow_succ_r by lia. reflexivity. }
    destruct (IH (n / 10) (String (Js.digit_char (n mod 10)) acc))
      as (c & ds & Hd & Hf & Hv).
    { split; [apply Z.div_pos; lia | apply Z.div_lt_upper_bound; lia]. }
    destruct (digit_char_value (n mod 10)) as [Hmd Hmv];
      [pose proof (Z.mod_pos_bound n 10); lia|].
    exists c, (ds ++ String (Js.digit_char (n mod 10)) "").
    split; [|split].
    + rewrite Hd.
      change (String c (ds ++ String (Js.digit_char (n mod 10)) ""))
        with (String c ds ++ String (Js.digit_char (n mod 10)) "").
      rewrite string_app_assoc. reflexivity.
    + change (String c (ds ++ String (Js.digit_char (n mod 10)) ""))
        with (String c ds ++ String (Js.digit_char (n mod 10)) "").
      rewrite string_forall_app, Hf. cbn [string_forall]. now rewrite Hmd.
    + change (String c (ds ++ String (Js.digit_char (n mod 10)) ""))
        with (String c ds ++ String (Js.digit_char (n mod 10)) "").
      rewrite digits_value_app, Hv. cbn [Js.digits_value].
      pose proof (Z.div_mod n 10). lia.
Qed.

Lemma log2_fuel_enough a :
  0 <= a -> a < 10 ^ Z.of_nat (S (Z.to_nat (Z.log2 a))).
Proof.
  intros Ha. rewrite Nat2Z.inj_succ, Z2Nat.id by apply Z.log2_nonneg.
  destruct (Z.eq_dec a 0) as [-> | Hn]; [reflexivity|].
  pose proof (Z.log2_spec a ltac:(lia)) as [_ Hs].
  pose proof (Z.log2_nonneg a).
  assert (2 ^ Z.succ (Z.log2 a) <= 10 ^ Z.succ (Z.log2 a))
    by (apply Z.pow_le_mono_l; lia).
  lia.
Qed.

Lemma span_digits_all ds :
  string_forall Js.is_digit ds = true -> Js.span_digits ds = (ds, "").
Proof.
  induction ds as [|c ds IH]; cbn [string_forall Js.span_digits];
    [reflexivity|].
  intros H. apply andb_true_iff in H as [Hc Hd].
  now rewrite Hc, (IH Hd).
Qed.

(** What the literal reader makes of a run of digits. *)
Lemma unsigned_digits neg c ds :
  string_forall Js.is_digit (String c ds) = true ->
  (if prefix "Infinity" (String c ds) then Js.Infinity neg
   else
     let (ip, r1) := Js.span_digits (String c ds) in
     let (fp, r2) :=
       match r1 with
       | String "." r => Js.span_digits r
       | _ => (EmptyString, r1)
       end in
     match ip ++ fp with
     | EmptyString => Js.NaN
     | digits => Js.Decimal neg (Js.digits_value digits 0)
                   (Js.exponent_part r2 - Z.of_nat (String.length fp))
     end)
  = Js.Decimal neg (Js.digits_value (String c ds) 0) 0.
Proof.
  intros H. rewrite (span_digits_all _ H).
  cbn [string_forall] in H. apply andb_true_iff in H as [Hc _].
  assert (prefix "Infinity" (String c ds) = false) as ->.
  { destruct (is_digit_cases c Hc)
      as [<-|[<-|[<-|[<-|[<-|[<-|[<-|[<-|[<-|[<-|[]]]]]]]]]]]; reflexivity. }
  cbn [append]. rewrite string_app_empty. reflexivity.
Qed.

Lemma parseFloat_toString n :
  Js.parseFloat (Js.toString n) = Js.Decimal (n <? 0) (Z.abs n) 0.
Proof.
  unfold Js.toString, Js.toString_radix.
  destruct (digits_onto_decimal (Z.to_nat (Z.log2 (Z.abs n))) (Z.abs n) "")
    as (c & ds & -> & Hf & Hv).
  { split; [lia | apply log2_fuel_enough; lia]. }
  rewrite string_app_empty.
  pose proof Hf as Hc. cbn [string_forall] in Hc.
  apply andb_true_iff in Hc as [Hc _].
  destruct (n <? 0).
  - unfold Js.parseFloat.
    assert (Js.take_sign (Js.trimStart (String "-" (String c ds)))
            = (true, String c ds)) as -> by reflexivity.
    cbv beta iota.
    rewrite (unsigned_digits true c ds Hf), Hv. reflexivity.
  - unfold Js.parseFloat.
    assert (Js.take_sign (Js.trimStart (String c ds)) = (false, String c ds))
      as ->.
    { destruct (is_digit_cases c Hc)
        as [<-|[<-|[<-|[<-|[<-|[<-|[<-|[<-|[<-|[<-|[]]]]]]]]]]]; reflexivity. }
    cbv beta iota.
    rewrite (unsigned_digits false c ds Hf), Hv. reflexivity.
Qed.

Lemma strictly_positive_toString n :
  strictly_positive (Js.toString n) = (0 <? n).
Proof.
  unfold strictly_positive. rewrite parseFloat_toString.
  unfold Js.gt_zero, Js.rounds_to_zero.
  change (0 <? 0) with false. cbn [andb]. rewrite orb_false_r.
  destruct (Z.ltb_spec n 0), (Z.eqb_spec (Z.abs n) 0), (Z.ltb_spec 0 n);
    simpl; try reflexivity; lia.
Qed.

Lemma le_zero_toString n :
  Js.le_zero (Js.parseFloat (Js.toString n)) = (n <=? 0).
Proof.
  rewrite parseFloat_toString. unfold Js.le_zero, Js.rounds_to_zero.
  change (0 <? 0) with false. cbn [andb]. rewrite orb_false_r.
  destruct (Z.ltb_spec n 0), (Z.eqb_spec (Z.abs n) 0), (Z.leb_spec n 0);
    simpl; try reflexivity; lia.
Qed.

Lemma truthy_toString n : Js.truthy (Js.toString n) = true.
Proof.
  pose proof (parseFloat_toString n) as H.
  destruct (Js.toString n); [discriminate H | reflexivity].
Qed.

(** X19.  On balances that are decimal renderings of integers the
    readiness rule is the sign test of the integers: the snapshot is ready,
    with pool status [READY], exactly when one of the two integers is
    strictly positive; zero and negative balances do not count. *)
Theorem integer_balances_readiness sdk chainId main incog token w n m :
  balance_reads_return sdk chainId main incog token w
                       (Js.toString n) (Js.toString m) ->
  exists status w' calls,
    checkPrivateFundsStatus sdk chainId main incog token w
    = (Return status, w', calls)
    /\ isReady status = (0 <? n) || (0 <? m)
    /\ privacyPoolStatus status
       = if (0 <? n) || (0 <? m) then READY else NOT_INITIALIZED.
Proof.
  intros H.
  destruct (checkPrivateFundsStatus_success _ _ _ _ _ _ _ _ H)
    as (w' & calls & E).
  eexists _, w', calls. split; [exact E|]. cbn [isReady privacyPoolStatus].
  rewrite !strictly_positive_toString. split; reflexivity.
Qed.

Lemma integer_balances_readiness_witness :
  exists status w' calls,
    checkPrivateFundsStatus (balancesSdk "0" "10000") 1 wallet1 wallet2 USDC
                            world0
    = (Return status, w', calls)
    /\ isReady status = (0 <? 0) || (0 <? 10000)
    /\ privacyPoolStatus status
       = if (0 <? 0) || (0 <? 10000) then READY else NOT_INITIALIZED.
Proof.
  apply (integer_balances_readiness (balancesSdk "0" "10000") 1 wallet1
           wallet2 USDC world0 0 10000).
  exists world0. split; reflexivity.
Defined.

(** X20.  On amounts that are decimal renderings of integers the amount
    validation is the sign test of the integer: with a well-formed address,
    [shieldTokens] and [unshieldTokens] accept the amount exactly when the
    integer is strictly positive. *)
Theorem integer_amounts_accepted rt a token n chainId w :
  address_shape a = true ->
  ((exists r w',
       ShieldModule.shieldTokens rt a token (Js.toString n) chainId w
       = (Return r, w'))
   <-> 0 < n)
  /\ ((exists r w',
          UnshieldModule.unshieldTokens rt a token (Js.toString n) chainId w
          = (Return r, w'))
      <-> 0 < n).
Proof.
  unfold address_shape. intros Ha.
  unfold ShieldModule.shieldTokens, UnshieldModule.unshieldTokens.
  rewrite Ha, (shape_is_truthy _ _ Ha), truthy_toString, le_zero_toString.
  cbn [negb orb].
  destruct (Z.leb_spec n 0); split; split;
    try (intros (r & w' & E); discriminate E); try lia; eauto.
Qed.

Lemma integer_amounts_accepted_witness :
  ((exists r w',
       ShieldModule.shieldTokens runtime0 wallet1 USDC (Js.toString 10000) 1
                                 world0
       = (Return r, w'))
   <-> 0 < 10000)
  /\ ((exists r w',
          UnshieldModule.unshieldTokens runtime0 wallet1 USDC
                                        (Js.toString 10000) 1 world0
          = (Return r, w'))
      <-> 0 < 10000).
Proof.
  apply (integer_amounts_accepted runtime0 wallet1 USDC 10000 1 world0).
  reflexivity.
Defined.
